(** * x402-bch-express: the payment gate, embedded and verified

    A shallow embedding of [index.js] (the Express middleware of the BCH
    flavour of x402): route-pattern compilation, route matching, payment
    requirement construction, payment-header decoding and the per-request
    handler, followed by the properties stated about them.

    Conventions of the embedding.
    - A JavaScript string is a [string] of 8-bit characters.  The source's
      strings are sequences of UTF-16 code units; the two agree on ASCII
      text, which is what route keys, methods and protocol messages are.
      Case conversion and the whitespace class are the ASCII ones; a
      property that depends on them is stated for ASCII strings
      ([ascii_only]).
    - A JavaScript number is an exact rational, [NaN] or an infinity
      ([number]); rounding to binary64, overflow and underflow are not
      modelled.  A property that depends on the value of a number is
      stated for number values, not for numerals to be converted, and one
      that depends on its decimal text for integers up to
      [MAX_SAFE_INTEGER].
    - A function that may throw returns a [completion]; the thrown thing is
      a JavaScript value, as in the language.
    - The request handler is written in a small monad [M] recording the calls
      made on [res] and [next]; a rejected promise is a [Throw] outcome. *)

From Stdlib Require Import List String Ascii Bool Arith ZArith QArith Qround Lia.
From Stdlib Require Import DecimalString.
Import ListNotations.
Local Close Scope Q_scope.
Local Open Scope string_scope.
Local Open Scope list_scope.
Local Open Scope nat_scope.

Set Implicit Arguments.
Set Warnings "-register-all".

(* ================================================================== *)
(** * Values *)

(** JavaScript numbers: finite values are exact rationals. *)
Inductive number : Type :=
| NaN
| Infinity (negative : bool)
| Fin (q : Q).

(** JavaScript values as far as route configurations, JSON documents and
    thrown errors need them.  [VObj] lists the own enumerable properties in
    insertion order; [VError name message] is an [Error] instance. *)
Inductive value : Type :=
| VUndefined
| VNull
| VBool (b : bool)
| VNum (n : number)
| VStr (s : string)
| VArr (items : list value)
| VObj (props : list (string * value))
| VError (name message : string).

Definition obj := list (string * value).

(** Outcome of evaluating a call: a value, or a thrown value. *)
Inductive completion (A : Type) : Type :=
| Normal (a : A)
| Throw (e : value).
Arguments Normal {A} a.
Arguments Throw {A} e.

Definition cbind {A B} (c : completion A) (k : A -> completion B) : completion B :=
  match c with
  | Normal a => k a
  | Throw e => Throw e
  end.

Notation "x <-- c ;; k" := (cbind c (fun x => k))
  (at level 61, c at next level, right associativity).

(** [list.map] with a callback that may throw: the first throw aborts. *)
Fixpoint cmap {A B} (f : A -> completion B) (l : list A) : completion (list B) :=
  match l with
  | [] => Normal []
  | x :: r => y <-- f x ;; ys <-- cmap f r ;; Normal (y :: ys)
  end.

Definition Error_ (msg : string) : value := VError "Error" msg.
Definition TypeError (msg : string) : value := VError "TypeError" msg.
Definition SyntaxError (msg : string) : value := VError "SyntaxError" msg.
Definition URIError (msg : string) : value := VError "URIError" msg.

(* ------------------------------------------------------------------ *)
(** ** Numbers *)

Definition Qpos_b (q : Q) : bool := negb (Qle_bool q 0).

(** [n <= 0] and [n > 0]; every comparison with [NaN] is false. *)
Definition num_le0 (n : number) : bool :=
  match n with
  | NaN => false
  | Infinity neg => neg
  | Fin q => Qle_bool q 0
  end.

Definition num_gt0 (n : number) : bool :=
  match n with
  | NaN => false
  | Infinity neg => negb neg
  | Fin q => Qpos_b q
  end.

Definition num_is_zero (n : number) : bool :=
  match n with Fin q => Qeq_bool q 0 | _ => false end.

(** [===] on numbers. *)
Definition num_eqb (a b : number) : bool :=
  match a, b with
  | Fin p, Fin q => Qeq_bool p q
  | Infinity x, Infinity y => Bool.eqb x y
  | _, _ => false
  end.

(** [Math.floor] of a finite number. *)
Definition Math_floor (q : Q) : Z := Qfloor q.

(** [Number.MAX_SAFE_INTEGER], 2^53 - 1: every integer up to it is a
    JavaScript number. *)
Definition MAX_SAFE_INTEGER : Z := 9007199254740991.

(** [String(n)] for an integer [n] below 10^21 in magnitude: decimal
    digits, a leading minus sign for negatives.  (From 10^21 on JavaScript
    prints exponent notation; the amounts and status codes of the
    properties below are under that bound.) *)
Definition String_of_Z (z : Z) : string := NilZero.string_of_int (Z.to_int z).

(* ------------------------------------------------------------------ *)
(** ** Characters and strings *)

Definition chr (n : nat) : ascii := ascii_of_nat n.
Definition ord (c : ascii) : nat := nat_of_ascii c.

Definition is_digit (c : ascii) : bool := (48 <=? ord c) && (ord c <=? 57).
Definition digit_val (c : ascii) : Z := Z.of_nat (ord c - 48).

(** A character of the ASCII range, and a string of such characters. *)
Definition is_ascii (c : ascii) : bool := ord c <? 128.

(** The white space of [\s] and of [trim] within ASCII: TAB, LF, VT, FF,
    CR, SPACE.  (Both classes also hold characters outside ASCII.) *)
Definition is_space (c : ascii) : bool :=
  ((9 <=? ord c) && (ord c <=? 13)) || (ord c =? 32).

(** Line terminators LF and CR. *)
Definition is_line_terminator (c : ascii) : bool :=
  (ord c =? 10) || (ord c =? 13).

Definition upper_char (c : ascii) : ascii :=
  if (97 <=? ord c) && (ord c <=? 122) then chr (ord c - 32) else c.

Fixpoint map_string (f : ascii -> ascii) (s : string) : string :=
  match s with
  | EmptyString => EmptyString
  | String c r => String (f c) (map_string f r)
  end.

(** [s.toUpperCase()]. *)
Definition toUpperCase (s : string) : string := map_string upper_char s.

Fixpoint existsb_string (p : ascii -> bool) (s : string) : bool :=
  match s with
  | EmptyString => false
  | String c r => p c || existsb_string p r
  end.

Fixpoint forallb_string (p : ascii -> bool) (s : string) : bool :=
  match s with
  | EmptyString => true
  | String c r => p c && forallb_string p r
  end.

Definition ascii_only (s : string) : bool := forallb_string is_ascii s.

Fixpoint filter_string (p : ascii -> bool) (s : string) : string :=
  match s with
  | EmptyString => EmptyString
  | String c r => if p c then String c (filter_string p r) else filter_string p r
  end.

Fixpoint rev_string_acc (s acc : string) : string :=
  match s with
  | EmptyString => acc
  | String c r => rev_string_acc r (String c acc)
  end.
Definition rev_string (s : string) : string := rev_string_acc s EmptyString.

Fixpoint drop_while (p : ascii -> bool) (s : string) : string :=
  match s with
  | EmptyString => EmptyString
  | String c r => if p c then drop_while p r else s
  end.

Definition drop_while_end (p : ascii -> bool) (s : string) : string :=
  rev_string (drop_while p (rev_string s)).

(** [s.trim()], on ASCII text. *)
Definition trim (s : string) : string :=
  drop_while_end is_space (drop_while is_space s).

(** [s.endsWith(suffix)] on characters already folded to upper case. *)
Definition ends_with (suffix s : string) : bool :=
  prefix (rev_string suffix) (rev_string s).

(** [s.replace(/c/g, by)] for a single-character class [p]: every character
    satisfying [p] is replaced by [by c]. *)
Fixpoint replace_chars (p : ascii -> bool) (by_ : ascii -> string) (s : string) : string :=
  match s with
  | EmptyString => EmptyString
  | String c r =>
      if p c then (by_ c ++ replace_chars p by_ r)%string
      else String c (replace_chars p by_ r)
  end.

Definition char_in (set : string) (c : ascii) : bool :=
  existsb_string (Ascii.eqb c) set.

(* ------------------------------------------------------------------ *)
(** ** [Number(string)] *)

Fixpoint take_digits (s : string) (acc : Z) (n : nat) : Z * nat * string :=
  match s with
  | String c r =>
      if is_digit c then take_digits r (acc * 10 + digit_val c)%Z (S n)
      else (acc, n, s)
  | EmptyString => (acc, n, s)
  end.

Definition hex_val (c : ascii) : option Z :=
  let n := ord c in
  if is_digit c then Some (Z.of_nat (n - 48))
  else if (65 <=? n) && (n <=? 70) then Some (Z.of_nat (n - 55))
  else if (97 <=? n) && (n <=? 102) then Some (Z.of_nat (n - 87))
  else None.

(** Digits of a [0x], [0o] or [0b] literal: all of [s], at least one. *)
Fixpoint radix_digits (base : Z) (s : string) (acc : Z) : option Z :=
  match s with
  | EmptyString => Some acc
  | String c r =>
      match hex_val c with
      | Some d => if (d <? base)%Z then radix_digits base r (acc * base + d)%Z else None
      | None => None
      end
  end.

Definition radix_literal (base : Z) (s : string) : number :=
  match s with
  | EmptyString => NaN
  | _ => match radix_digits base s 0%Z with
         | Some z => Fin (inject_Z z)
         | None => NaN
         end
  end.

(** [ExponentPart] up to the end of the literal: [e], a sign, digits. *)
Definition exponent_part (s : string) : option Z :=
  match s with
  | EmptyString => Some 0%Z
  | String c r =>
      if (ord c =? 101) || (ord c =? 69) then
        let '(neg, r') :=
          match r with
          | String "-" t => (true, t)
          | String "+" t => (false, t)
          | _ => (false, r)
          end in
        match take_digits r' 0%Z 0 with
        | (e, S _, EmptyString) => Some (if neg then (- e)%Z else e)
        | _ => None
        end
      else None
  end.

Definition scale (mant : Q) (e : Z) : Q := Qred (Qmult mant (Qpower (inject_Z 10) e)).

(** [StrUnsignedDecimalLiteral] other than [Infinity]. *)
Definition unsigned_decimal (s : string) : option Q :=
  let '(ip, ni, r1) := take_digits s 0%Z 0 in
  match r1 with
  | String "." r1' =>
      let '(fp, nf, r2) := take_digits r1' 0%Z 0 in
      if (ni + nf =? 0) then None
      else
        match exponent_part r2 with
        | Some e =>
            Some (scale (inject_Z (ip * 10 ^ Z.of_nat nf + fp)) (e - Z.of_nat nf))
        | None => None
        end
  | _ =>
      if ni =? 0 then None
      else match exponent_part r1 with
           | Some e => Some (scale (inject_Z ip) e)
           | None => None
           end
  end.

Definition str_decimal_literal (s : string) : number :=
  let '(neg, u) :=
    match s with
    | String "-" t => (true, t)
    | String "+" t => (false, t)
    | _ => (false, s)
    end in
  if String.eqb u "Infinity" then Infinity neg
  else match unsigned_decimal u with
       | Some q => Fin (if neg then Qopp q else q)
       | None => NaN
       end.

(** [StringToNumber]: white space is trimmed, the empty string is 0, and
    a literal that is not a [StringNumericLiteral] is [NaN].  The value of
    a numeral is its exact value: JavaScript rounds it to the nearest
    binary64 number, so that a numeral of great magnitude is an infinity
    there and a tiny one is zero. *)
Definition StringToNumber (s : string) : number :=
  match trim s with
  | EmptyString => Fin 0
  | String "0" (String c r) as t =>
      if (ord c =? 120) || (ord c =? 88) then radix_literal 16 r
      else if (ord c =? 111) || (ord c =? 79) then radix_literal 8 r
      else if (ord c =? 98) || (ord c =? 66) then radix_literal 2 r
      else str_decimal_literal t
  | t => str_decimal_literal t
  end.

(** [Error.prototype.toString]. *)
Definition error_to_string (name message : string) : string :=
  match name, message with
  | EmptyString, _ => message
  | _, EmptyString => name
  | _, _ => (name ++ ": " ++ message)%string
  end.

(** [Number(v)].  An array converts through its string form: the empty
    array is the empty string, a one-element array is its element's string
    form (empty for [undefined] and [null]), and a longer array contains a
    comma, which is not numeric.  A plain object is ["[object Object]"]. *)
Fixpoint ToNumber (v : value) : number :=
  match v with
  | VUndefined => NaN
  | VNull => Fin 0
  | VBool b => Fin (if b then 1 else 0)
  | VNum n => n
  | VStr s => StringToNumber s
  | VArr [] => Fin 0
  | VArr [x] =>
      match x with
      | VUndefined | VNull => Fin 0
      | VBool _ => NaN
      | _ => ToNumber x
      end
  | VArr _ => NaN
  | VObj _ => NaN
  | VError name message => StringToNumber (error_to_string name message)
  end.

(* ------------------------------------------------------------------ *)
(** ** Operators on values *)

(** ToBoolean. *)
Definition truthy (v : value) : bool :=
  match v with
  | VUndefined | VNull => false
  | VBool b => b
  | VNum NaN => false
  | VNum n => negb (num_is_zero n)
  | VStr s => negb (String.eqb s "")
  | _ => true
  end.

(** [a || b]. *)
Definition or_else (a b : value) : value := if truthy a then a else b.

(** [v == null]. *)
Definition nullish (v : value) : bool :=
  match v with
  | VUndefined | VNull => true
  | _ => false
  end.

(** [a === b] for operands that are not one and the same object: objects,
    arrays and errors compare by identity, and the operands compared in
    this program never alias. *)
Definition strict_equal (a b : value) : bool :=
  match a, b with
  | VUndefined, VUndefined => true
  | VNull, VNull => true
  | VBool x, VBool y => Bool.eqb x y
  | VNum x, VNum y => num_eqb x y
  | VStr x, VStr y => String.eqb x y
  | _, _ => false
  end.

Fixpoint obj_lookup (o : obj) (k : string) : option value :=
  match o with
  | [] => None
  | (k', v) :: r => if String.eqb k k' then Some v else obj_lookup r k
  end.

(** [o[k]] on an object. *)
Definition obj_get (o : obj) (k : string) : value :=
  match obj_lookup o k with
  | Some v => v
  | None => VUndefined
  end.

(** [o[k] = v]: an existing property keeps its place. *)
Fixpoint obj_set (o : obj) (k : string) (v : value) : obj :=
  match o with
  | [] => [(k, v)]
  | (k', v') :: r =>
      if String.eqb k k' then (k', v) :: r else (k', v') :: obj_set r k v
  end.

Fixpoint indexed (i : nat) (l : list value) : obj :=
  match l with
  | [] => []
  | x :: r => (String_of_Z (Z.of_nat i), x) :: indexed (S i) r
  end.

Fixpoint chars_of (s : string) : list value :=
  match s with
  | EmptyString => []
  | String c r => VStr (String c EmptyString) :: chars_of r
  end.

(** Own enumerable properties, as object spread copies them. *)
Definition own_props (v : value) : obj :=
  match v with
  | VObj props => props
  | VArr items => indexed 0 items
  | VStr s => indexed 0 (chars_of s)
  | _ => []
  end.

(** [{ ...target, ...source }]. *)
Definition spread (target : obj) (source : value) : obj :=
  fold_left (fun o kv => obj_set o (fst kv) (snd kv)) (own_props source) target.

(** [Object.fromEntries]. *)
Definition Object_fromEntries (entries : list (string * value)) : obj :=
  fold_left (fun o kv => obj_set o (fst kv) (snd kv)) entries [].

(** [v.name] and [v[name]] for the property names this program reads,
    none of which is a built-in member of strings, numbers, booleans or
    arrays.  Reading a property of [undefined] or [null] throws. *)
Definition get_prop (v : value) (name : string) : completion value :=
  match v with
  | VUndefined =>
      Throw (TypeError ("Cannot read properties of undefined (reading '" ++ name ++ "')"))
  | VNull =>
      Throw (TypeError ("Cannot read properties of null (reading '" ++ name ++ "')"))
  | VObj props => Normal (obj_get props name)
  | VError n m =>
      Normal (if String.eqb name "message" then VStr m
              else if String.eqb name "name" then VStr n
              else VUndefined)
  | _ => Normal VUndefined
  end.

(** [v?.name]. *)
Definition get_prop_opt (v : value) (name : string) : value :=
  match get_prop v name with
  | Normal x => x
  | Throw _ => VUndefined
  end.

(* ================================================================== *)
(** * Regular expressions *)

(** A [RegExp] object as the program uses it: its [source] text and its
    [test] method.  No pattern of this program carries the [g] or [y] flag,
    so [test] has no state. *)
Record RegExp : Type := mkRegExp {
  source : string;
  test : string -> bool
}.

(** A reference engine for the pattern language that [computeRoutePatterns]
    emits: literal characters, escaped syntax characters, [.] and the class
    [[^\/]], each optionally under [*], [*?], [+] or [+?], and the
    assertions [^] and [$]; matching ignores case.  [parse_pattern] is
    [None] on any other pattern text, which covers both genuine syntax
    errors (an unterminated class) and legal patterns beyond this fragment;
    the text of the [SyntaxError] is schematic.  The general results below
    do not depend on this engine, and it is evaluated on patterns of the
    fragment only. *)
Module Engine.

Inductive atom : Type :=
| Lit (c : ascii)
| AnyChar
| NotSlash.

Inductive item : Type :=
| AssertStart
| AssertEnd
| One (a : atom)
| Star (a : atom)
| Plus (a : atom).

Definition syntax_char (c : ascii) : bool := char_in "^$\.*+?()[]{}|/" c.

Definition quantified (a : atom) (rest : string) : item * string :=
  match rest with
  | String "*" (String "?" r) => (Star a, r)
  | String "*" r => (Star a, r)
  | String "+" (String "?" r) => (Plus a, r)
  | String "+" r => (Plus a, r)
  | _ => (One a, rest)
  end.

Definition cons_item (a : atom) (rest : string)
    (k : string -> option (list item)) : option (list item) :=
  let '(it, r) := quantified a rest in
  match k r with
  | Some l => Some (it :: l)
  | None => None
  end.

Fixpoint parse_items (fuel : nat) (s : string) : option (list item) :=
  match fuel with
  | O => None
  | S fuel' =>
      match s with
      | EmptyString => Some []
      | String "^" r => option_map (cons AssertStart) (parse_items fuel' r)
      | String "$" r => option_map (cons AssertEnd) (parse_items fuel' r)
      | String "\" (String c r) =>
          if syntax_char c then cons_item (Lit c) r (parse_items fuel') else None
      | String "\" EmptyString => None
      | String "." r => cons_item AnyChar r (parse_items fuel')
      | String "[" (String "^" (String "\" (String "/" (String "]" r)))) =>
          cons_item NotSlash r (parse_items fuel')
      | String "]" r => cons_item (Lit "]") r (parse_items fuel')
      | String c r =>
          if syntax_char c || is_line_terminator c then None
          else cons_item (Lit c) r (parse_items fuel')
      end
  end.

Definition parse_pattern (s : string) : option (list item) :=
  parse_items (S (String.length s)) s.

(** Under the [i] flag a character of the pattern and a character of the
    input match when their canonical forms are equal; for an ASCII
    character of the pattern that is equality up to the case of ASCII
    letters, whatever the input. *)
Definition accepts (a : atom) (c : ascii) : bool :=
  match a with
  | Lit l => Ascii.eqb (upper_char l) (upper_char c)
  | AnyChar => negb (is_line_terminator c)
  | NotSlash => negb (Ascii.eqb c "/")
  end.

(** Is there a match of [items] that starts at the head of the input?
    [at_start] tells whether that head is the start of the whole input. *)
Fixpoint match_items (items : list item) : string -> bool -> bool :=
  match items with
  | [] => fun _ _ => true
  | AssertStart :: r => fun s at_start => at_start && match_items r s at_start
  | AssertEnd :: r => fun s at_start =>
      match s with
      | EmptyString => match_items r s at_start
      | _ => false
      end
  | One a :: r => fun s _ =>
      match s with
      | String c s' => accepts a c && match_items r s' false
      | EmptyString => false
      end
  | Star a :: r =>
      fix star (s : string) (at_start : bool) : bool :=
        match_items r s at_start ||
        match s with
        | String c s' => accepts a c && star s' false
        | EmptyString => false
        end
  | Plus a :: r => fun s _ =>
      match s with
      | String c s' =>
          accepts a c &&
          (fix star (s : string) (at_start : bool) : bool :=
             match_items r s at_start ||
             match s with
             | String c s' => accepts a c && star s' false
             | EmptyString => false
             end) s' false
      | EmptyString => false
      end
  end.

(** [RegExp.prototype.test]: a match starting anywhere in the input. *)
Fixpoint search (items : list item) (s : string) (at_start : bool) : bool :=
  match_items items s at_start ||
  match s with
  | String _ r => search items r false
  | EmptyString => false
  end.

(** [new RegExp(pattern, 'i')]. *)
Definition newRegExp (pattern : string) : completion RegExp :=
  match parse_pattern pattern with
  | Some items =>
      Normal {| source := match pattern with EmptyString => "(?:)" | _ => pattern end;
                test := fun s => search items s true |}
  | None =>
      Throw (SyntaxError ("Invalid regular expression: /" ++ pattern ++ "/"))
  end.

End Engine.

(* ================================================================== *)
(** * index.js *)

Definition DEFAULT_NETWORK : string := "bch".
Definition DEFAULT_ASSET : string := "0x0000000000000000000000000000000000000001".
Definition DEFAULT_MIN_AMOUNT : Z := 1000.

Record RoutePattern : Type := mkRoutePattern {
  verb : string;
  pattern : RegExp;
  config : obj
}.

(* ------------------------------------------------------------------ *)
(** ** computeRoutePatterns *)

(** [s.split(/\s+/)]: the pieces between maximal runs of white space; a
    leading or trailing run leaves an empty first or last piece.  [cur] is
    the piece being read, reversed; [in_ws] tells that the previous
    character was white space. *)
Fixpoint split_ws_aux (s : string) (cur : string) (in_ws : bool) : list string :=
  match s with
  | EmptyString => [rev_string cur]
  | String c r =>
      if is_space c then
        if in_ws then split_ws_aux r cur true
        else rev_string cur :: split_ws_aux r EmptyString true
      else split_ws_aux r (String c cur) false
  end.

Definition split_ws (s : string) : list string := split_ws_aux s EmptyString false.

(** [s.includes(' ')]. *)
Definition includes_space (s : string) : bool := existsb_string (Ascii.eqb " ") s.

(** After an opening bracket: the text that follows the first closing
    bracket, when at least one character stands between the two. *)
Fixpoint bracket_close (s : string) (n : nat) : option string :=
  match s with
  | EmptyString => None
  | String c r =>
      if Ascii.eqb c "]" then (if n =? 0 then None else Some r)
      else bracket_close r (S n)
  end.

(** [s.replace(/\[([^\]]+)\]/g, '[^/]+')]. *)
Fixpoint replace_brackets (fuel : nat) (s : string) : string :=
  match fuel with
  | O => s
  | S fuel' =>
      match s with
      | EmptyString => EmptyString
      | String c r =>
          if Ascii.eqb c "[" then
            match bracket_close r 0 with
            | Some rest => ("[^/]+" ++ replace_brackets fuel' rest)%string
            | None => String c (replace_brackets fuel' r)
            end
          else String c (replace_brackets fuel' r)
      end
  end.

Definition escape_char (c : ascii) : string := String "\" (String c EmptyString).

(** The four replacements of the path, in the source's order. *)
Definition path_to_regex (path : string) : string :=
  let s1 := replace_chars (char_in "$()+.?^{|}") escape_char path in
  let s2 := replace_chars (Ascii.eqb "*") (fun _ => ".*?") s1 in
  let s3 := replace_brackets (String.length s2) s2 in
  replace_chars (Ascii.eqb "/") (fun _ => "\/") s3.

Definition regexPattern_of (path : string) : string :=
  ("^" ++ path_to_regex path ++ "$")%string.

Definition nth_string (l : list string) (i : nat) : string := nth i l EmptyString.

(** [a || b] on strings (an absent list element reads as empty here, an
    absent element and an empty string both being falsy). *)
Definition str_or (a b : string) : string :=
  match a with EmptyString => b | _ => a end.

Definition invalid_route_pattern (key : string) : value :=
  Error_ ("Invalid route pattern: " ++ key).

Section Compile.

(** The [RegExp] constructor with the [i] flag. *)
Variable RegExp_new : string -> completion RegExp.

Definition normalizeValue (routes : obj) (v : value) : obj :=
  let network := or_else (obj_get routes "network") (VStr DEFAULT_NETWORK) in
  match v with
  | VStr _ | VNum _ => [("price", v); ("network", network)]
  | _ => spread [("network", network)] v
  end.

(** [routes] lists the entries of the route map in the order in which
    [Object.entries] enumerates them (keys that are array indices, which
    the language enumerates first, are taken to be listed first). *)
Definition normalizedRoutes (routes : obj) : obj :=
  Object_fromEntries
    (flat_map (fun kv : string * value =>
                 if String.eqb (fst kv) "network" then []
                 else [(fst kv, VObj (normalizeValue routes (snd kv)))])
              routes).

Definition key_parts (key : string) : list string :=
  if includes_space key then split_ws key else ["*"; key].

Definition key_verb (key : string) : string :=
  toUpperCase (str_or (nth_string (key_parts key) 0) "*").

Definition key_path (key : string) : string :=
  str_or (nth_string (key_parts key) 1) (nth_string (key_parts key) 0).

Definition compileEntry (kv : string * value) : completion RoutePattern :=
  let key := fst kv in
  let path := key_path key in
  match path with
  | EmptyString => Throw (invalid_route_pattern key)
  | _ =>
      re <-- RegExp_new (regexPattern_of path) ;;
      Normal {| verb := key_verb key; pattern := re; config := own_props (snd kv) |}
  end.

Definition computeRoutePatterns (routes : obj) : completion (list RoutePattern) :=
  cmap compileEntry (normalizedRoutes routes).

End Compile.

(* ------------------------------------------------------------------ *)
(** ** findMatchingRoute *)

(** [%XX] at the head of the input: the octet and the rest. *)
Definition take_escape (s : string) : option (Z * string) :=
  match s with
  | String "%" (String h1 (String h2 r)) =>
      match hex_val h1, hex_val h2 with
      | Some a, Some b => Some ((16 * a + b)%Z, r)
      | _, _ => None
      end
  | _ => None
  end.

(** The [n] continuation octets [10xxxxxx] that must follow as escapes:
    their payload bits appended to [acc], their characters, and the rest. *)
Fixpoint take_continuations (n : nat) (s : string) (acc : Z) (out : string)
    : option (Z * string * string) :=
  match n with
  | O => Some (acc, out, s)
  | S n' =>
      match take_escape s with
      | Some (b, r) =>
          if (Z.land b 192 =? 128)%Z then
            take_continuations n' r (acc * 64 + Z.land b 63)%Z
              (out ++ String (ascii_of_N (Z.to_N b)) EmptyString)%string
          else None
      | None => None
      end
  end.

Definition uri_malformed : value := URIError "URI malformed".

(** A code point decoded from [len] octets is well formed when it is not
    over-long, not a surrogate, and at most U+10FFFF. *)
Definition valid_code_point (len : nat) (cp : Z) : bool :=
  match len with
  | 2 => (128 <=? cp)%Z
  | 3 => (2048 <=? cp)%Z && negb ((55296 <=? cp)%Z && (cp <=? 57343)%Z)
  | 4 => (65536 <=? cp)%Z && (cp <=? 1114111)%Z
  | _ => false
  end.

(** [decodeURIComponent]: every escape is decoded; octets of 128 and above
    must spell one well-formed UTF-8 sequence, whose characters are kept
    as they are.  Anything else throws [URIError]. *)
Fixpoint decode_uri (fuel : nat) (s : string) : completion string :=
  match fuel with
  | O => Normal EmptyString
  | S fuel' =>
      match s with
      | EmptyString => Normal EmptyString
      | String "%" _ =>
          match take_escape s with
          | None => Throw uri_malformed
          | Some (b, r) =>
              let lead := String (ascii_of_N (Z.to_N b)) EmptyString in
              if (b <? 128)%Z then
                t <-- decode_uri fuel' r ;; Normal (lead ++ t)%string
              else
                let '(len, bits) :=
                  if (b <? 192)%Z then (1, 0%Z)
                  else if (b <? 224)%Z then (2, Z.land b 31)
                  else if (b <? 240)%Z then (3, Z.land b 15)
                  else if (b <? 248)%Z then (4, Z.land b 7)
                  else (5, 0%Z) in
                if (len =? 1) || (4 <? len) then Throw uri_malformed
                else
                  match take_continuations (len - 1) r bits lead with
                  | Some (cp, octets, r') =>
                      if valid_code_point len cp then
                        t <-- decode_uri fuel' r' ;; Normal (octets ++ t)%string
                      else Throw uri_malformed
                  | None => Throw uri_malformed
                  end
          end
      | String c r => t <-- decode_uri fuel' r ;; Normal (String c t)
      end
  end.

Definition decodeURIComponent (s : string) : completion string :=
  decode_uri (String.length s) s.

(** [s.split(/[?#]/)[0]]. *)
Fixpoint before_query (s : string) : string :=
  match s with
  | EmptyString => EmptyString
  | String c r =>
      if Ascii.eqb c "?" || Ascii.eqb c "#" then EmptyString
      else String c (before_query r)
  end.

(** [s.replace(/\/+/g, '/')]. *)
Fixpoint collapse_slashes (s : string) : string :=
  match s with
  | EmptyString => EmptyString
  | String c r =>
      if Ascii.eqb c "/" then String "/" (drop_while (Ascii.eqb "/") (collapse_slashes r))
      else String c (collapse_slashes r)
  end.

(** Does [s] end in a line terminator: LF, CR, or the UTF-8 octets of
    U+2028 or U+2029? *)
Definition ends_in_line_terminator (s : string) : bool :=
  match rev_string s with
  | String c r =>
      is_line_terminator c ||
      match r with
      | String c2 (String c3 _) =>
          ((ord c =? 168) || (ord c =? 169)) && (ord c2 =? 128) && (ord c3 =? 226)
      | _ => false
      end
  | EmptyString => false
  end.

(** [s.replace(/(.+?)\/+$/, '$1')].  Write [s] as [p] followed by its
    trailing slashes.  The lazy group cannot cross a line terminator and
    must be followed by at least one slash up to the end, so: without a
    trailing slash nothing matches; when [p] is non-empty and does not end
    in a line terminator the group ends at the end of [p] and all trailing
    slashes go; otherwise the group can only be the first of the trailing
    slashes, and exactly one slash stays. *)
Definition strip_trailing_slashes (s : string) : string :=
  let p := drop_while_end (Ascii.eqb "/") s in
  if String.eqb p s then s
  else
    match p with
    | EmptyString => "/"
    | _ => if ends_in_line_terminator p then (p ++ "/")%string else p
    end.

(** The body of the [try] block. *)
Definition normalizePath (path : string) : completion string :=
  let pathWithoutQuery := before_query path in
  decodedPath <-- decodeURIComponent pathWithoutQuery ;;
  Normal (strip_trailing_slashes
            (collapse_slashes
               (replace_chars (Ascii.eqb "\") (fun _ => "/") decodedPath))).

Definition is_candidate (normalizedPath method : string) (r : RoutePattern) : bool :=
  let matchesPath := test (pattern r) normalizedPath in
  let matchesVerb := String.eqb (verb r) "*" || String.eqb (toUpperCase method) (verb r) in
  matchesPath && matchesVerb.

Definition source_length (r : RoutePattern) : nat := String.length (source (pattern r)).

(** The callback of [reduce]. *)
Definition longer (a b : RoutePattern) : RoutePattern :=
  if source_length a <? source_length b then b else a.

Definition candidates_of (routePatterns : list RoutePattern) (normalizedPath method : string)
    : list RoutePattern :=
  filter (is_candidate normalizedPath method) routePatterns.

Definition findMatchingRoute (routePatterns : list RoutePattern) (path method : string)
    : completion (option RoutePattern) :=
  match normalizePath path with
  | Throw _ => Normal None
  | Normal normalizedPath =>
      match candidates_of routePatterns normalizedPath method with
      | [] => Normal None
      | a :: rest => Normal (Some (fold_left longer rest a))
      end
  end.

(* ------------------------------------------------------------------ *)
(** ** resolveMinAmountRequired and buildPaymentRequirements *)

Record Request : Type := mkRequest {
  protocol : string;
  host : string;            (* req.headers.host *)
  path : string;
  method : string;
  x_payment : option string (* req.header('X-PAYMENT'); [None] is undefined *)
}.

Definition is_digit_or_dot (c : ascii) : bool := is_digit c || Ascii.eqb c ".".

(** [/sat(s|oshis)?$/i.test(s)]. *)
Definition has_satoshi_suffix (s : string) : bool :=
  let u := toUpperCase s in
  ends_with "SAT" u || ends_with "SATS" u || ends_with "SATOSHIS" u.

(** [/^[0-9]+$/u.test(s)]. *)
Definition all_digits (s : string) : bool :=
  negb (String.eqb s "") && forallb_string is_digit s.

Definition invalid_amount : value := Error_ "minAmountRequired must be a positive number".

Definition resolveMinAmountRequired (routeConfig : obj) : completion Z :=
  if negb (nullish (obj_get routeConfig "minAmountRequired")) then
    let minAmount := ToNumber (obj_get routeConfig "minAmountRequired") in
    match minAmount with
    | Fin q =>
        if num_le0 minAmount then Throw invalid_amount
        else Normal (Math_floor q)
    | _ => Throw invalid_amount
    end
  else
    let price := obj_get routeConfig "price" in
    match price with
    | VNum (Fin q) =>
        if num_gt0 (Fin q) then Normal (Math_floor q) else Normal DEFAULT_MIN_AMOUNT
    | VStr s =>
        let trimmed := trim s in
        let numeric := StringToNumber (filter_string is_digit_or_dot trimmed) in
        match numeric with
        | Fin q =>
            if num_gt0 numeric && (has_satoshi_suffix trimmed || all_digits trimmed)
            then Normal (Math_floor q)
            else Normal DEFAULT_MIN_AMOUNT
        | _ => Normal DEFAULT_MIN_AMOUNT
        end
    | _ => Normal DEFAULT_MIN_AMOUNT
    end.

(** A destructuring default: it applies to [undefined] only. *)
Definition default_to (v d : value) : value :=
  match v with VUndefined => d | _ => v end.

Definition buildPaymentRequirements (payTo : string) (routeConfig : obj) (req : Request)
    : completion (list value) :=
  minAmountRequired <-- resolveMinAmountRequired routeConfig ;;
  let network := or_else (obj_get routeConfig "network") (VStr DEFAULT_NETWORK) in
  let cfg := or_else (obj_get routeConfig "config") (VObj []) in
  let description := default_to (get_prop_opt cfg "description") (VStr "") in
  let mimeType := default_to (get_prop_opt cfg "mimeType") (VStr "") in
  let maxTimeoutSeconds := default_to (get_prop_opt cfg "maxTimeoutSeconds") (VNum (Fin 60)) in
  let discoverable := default_to (get_prop_opt cfg "discoverable") (VBool true) in
  let asset := default_to (get_prop_opt cfg "asset") (VStr DEFAULT_ASSET) in
  let extra := default_to (get_prop_opt cfg "extra") (VObj []) in
  let outputSchema := get_prop_opt cfg "outputSchema" in
  let resource :=
    match get_prop_opt (obj_get routeConfig "config") "resource" with
    | VStr r => VStr r
    | _ => VStr (protocol req ++ "://" ++ host req ++ path req)
    end in
  let requirements :=
    VObj [ ("scheme", VStr "utxo");
           ("network", network);
           ("minAmountRequired", VStr (String_of_Z minAmountRequired));
           ("resource", resource);
           ("description", description);
           ("mimeType", mimeType);
           ("payTo", VStr payTo);
           ("maxTimeoutSeconds", maxTimeoutSeconds);
           ("asset", asset);
           ("outputSchema",
            or_else outputSchema
              (VObj [("input", VObj [ ("type", VStr "http");
                                     ("method", VStr (toUpperCase (method req)));
                                     ("discoverable", discoverable) ])]));
           ("extra", extra) ] in
  Normal [requirements].

(* ------------------------------------------------------------------ *)
(** ** JSON.parse *)

Definition dquote : ascii := chr 34.
Definition byte (z : Z) : ascii := ascii_of_N (Z.to_N z).

(** JSON text written with apostrophes for its quotation marks. *)
Definition json_text (s : string) : string :=
  map_string (fun c => if Ascii.eqb c "'" then dquote else c) s.

Definition json_ws (c : ascii) : bool :=
  (ord c =? 32) || (ord c =? 9) || (ord c =? 10) || (ord c =? 13).

Definition skip_ws (s : string) : string := drop_while json_ws s.

Definition utf8_encode (cp : Z) : string :=
  (if cp <? 128 then String (byte cp) EmptyString
   else if cp <? 2048 then
     String (byte (192 + cp / 64)) (String (byte (128 + cp mod 64)) EmptyString)
   else if cp <? 65536 then
     String (byte (224 + cp / 4096))
       (String (byte (128 + (cp / 64) mod 64))
          (String (byte (128 + cp mod 64)) EmptyString))
   else
     String (byte (240 + cp / 262144))
       (String (byte (128 + (cp / 4096) mod 64))
          (String (byte (128 + (cp / 64) mod 64))
             (String (byte (128 + cp mod 64)) EmptyString))))%Z.

(** Four hexadecimal digits. *)
Definition hex4 (s : string) : option (Z * string) :=
  match s with
  | String a (String b (String c (String d r))) =>
      match hex_val a, hex_val b, hex_val c, hex_val d with
      | Some x, Some y, Some z, Some w => Some ((((x * 16 + y) * 16 + z) * 16 + w)%Z, r)
      | _, _, _, _ => None
      end
  | _ => None
  end.

(** A [\u] escape, read after the [u]: one code unit, or a surrogate pair
    when a high surrogate is followed by an escaped low surrogate. *)
Definition unicode_escape (s : string) : option (string * string) :=
  match hex4 s with
  | None => None
  | Some (hi, r) =>
      let single := Some (utf8_encode hi, r) in
      if ((55296 <=? hi) && (hi <=? 56319))%Z then
        match r with
        | String "\" (String "u" r') =>
            match hex4 r' with
            | Some (lo, r'') =>
                if ((56320 <=? lo) && (lo <=? 57343))%Z
                then Some (utf8_encode (65536 + (hi - 55296) * 1024 + (lo - 56320))%Z, r'')
                else single
            | None => single
            end
        | _ => single
        end
      else single
  end.

Definition simple_escape (c : ascii) : option ascii :=
  if Ascii.eqb c dquote then Some dquote
  else if Ascii.eqb c "\" then Some "\"%char
  else if Ascii.eqb c "/" then Some "/"%char
  else if Ascii.eqb c "b" then Some (chr 8)
  else if Ascii.eqb c "f" then Some (chr 12)
  else if Ascii.eqb c "n" then Some (chr 10)
  else if Ascii.eqb c "r" then Some (chr 13)
  else if Ascii.eqb c "t" then Some (chr 9)
  else None.

(** The characters of a string literal after its opening quotation mark,
    and the text after the closing one. *)
Fixpoint json_string (fuel : nat) (s : string) : option (string * string) :=
  match fuel with
  | O => None
  | S fuel' =>
      match s with
      | EmptyString => None
      | String "\" (String "u" r) =>
          match unicode_escape r with
          | Some (chars, r') =>
              option_map (fun p => ((chars ++ fst p)%string, snd p)) (json_string fuel' r')
          | None => None
          end
      | String "\" (String c r) =>
          match simple_escape c with
          | Some e => option_map (fun p => (String e (fst p), snd p)) (json_string fuel' r)
          | None => None
          end
      | String c r =>
          if Ascii.eqb c dquote then Some (EmptyString, r)
          else if (ord c <? 32) || Ascii.eqb c "\" then None
          else option_map (fun p => (String c (fst p), snd p)) (json_string fuel' r)
      end
  end.

Definition is_exp_mark (c : ascii) : bool := (ord c =? 101) || (ord c =? 69).

(** A number literal at the head of the input. *)
Definition json_number (s : string) : option (number * string) :=
  let '(neg, s1) := match s with String "-" t => (true, t) | _ => (false, s) end in
  let '(ip, ni, r1) := take_digits s1 0%Z 0 in
  let leading_zero := match s1 with String "0" _ => negb (ni =? 1) | _ => false end in
  if (ni =? 0) || leading_zero then None
  else
    let '(fp, nf, r2, okf) :=
      match r1 with
      | String "." t => let '(f, n, r) := take_digits t 0%Z 0 in (f, n, r, negb (n =? 0))
      | _ => (0%Z, 0, r1, true)
      end in
    let '(e, r3, oke) :=
      match r2 with
      | String c t =>
          if is_exp_mark c then
            let '(eneg, t') :=
              match t with
              | String "-" u => (true, u)
              | String "+" u => (false, u)
              | _ => (false, t)
              end in
            let '(ev, ne, r) := take_digits t' 0%Z 0 in
            ((if eneg then - ev else ev)%Z, r, negb (ne =? 0))
          else (0%Z, r2, true)
      | EmptyString => (0%Z, r2, true)
      end in
    if okf && oke then
      let q := scale (inject_Z (ip * 10 ^ Z.of_nat nf + fp)) (e - Z.of_nat nf) in
      Some (Fin (Qred (if neg then Qopp q else q)), r3)
    else None.

Section JsonValue.

(** The parser of one value, for the nesting levels below. *)
Variable parse_inner : string -> option (value * string).

(** Array elements after the opening bracket of a non-empty array. *)
Fixpoint json_elements (fuel : nat) (s : string) (acc : list value)
    : option (list value * string) :=
  match fuel with
  | O => None
  | S fuel' =>
      match parse_inner s with
      | Some (v, r) =>
          match skip_ws r with
          | String "," r' => json_elements fuel' r' (acc ++ [v])
          | String "]" r' => Some (acc ++ [v], r')
          | _ => None
          end
      | None => None
      end
  end.

(** Object members after the opening brace of a non-empty object; a
    repeated key keeps its first place and takes the last value. *)
Fixpoint json_members (fuel : nat) (s : string) (acc : obj) : option (obj * string) :=
  match fuel with
  | O => None
  | S fuel' =>
      match skip_ws s with
      | String q r =>
          if Ascii.eqb q dquote then
            match json_string (String.length r) r with
            | Some (k, r1) =>
                match skip_ws r1 with
                | String ":" r2 =>
                    match parse_inner r2 with
                    | Some (v, r3) =>
                        match skip_ws r3 with
                        | String "," r4 => json_members fuel' r4 (obj_set acc k v)
                        | String "}" r4 => Some (obj_set acc k v, r4)
                        | _ => None
                        end
                    | None => None
                    end
                | _ => None
                end
            | None => None
            end
          else None
      | EmptyString => None
      end
  end.

End JsonValue.

Fixpoint json_value (fuel : nat) (s : string) : option (value * string) :=
  match fuel with
  | O => None
  | S fuel' =>
      match skip_ws s with
      | EmptyString => None
      | String c r as t =>
          if Ascii.eqb c "{" then
            match skip_ws r with
            | String "}" r' => Some (VObj [], r')
            | _ => option_map (fun p => (VObj (fst p), snd p))
                     (json_members (json_value fuel') fuel' r [])
            end
          else if Ascii.eqb c "[" then
            match skip_ws r with
            | String "]" r' => Some (VArr [], r')
            | _ => option_map (fun p => (VArr (fst p), snd p))
                     (json_elements (json_value fuel') fuel' r [])
            end
          else if Ascii.eqb c dquote then
            option_map (fun p => (VStr (fst p), snd p)) (json_string (String.length r) r)
          else if prefix "true" t then Some (VBool true, substring 4 (String.length t - 4) t)
          else if prefix "false" t then Some (VBool false, substring 5 (String.length t - 5) t)
          else if prefix "null" t then Some (VNull, substring 4 (String.length t - 4) t)
          else option_map (fun p => (VNum (fst p), snd p)) (json_number t)
      end
  end.

(** The message of the [SyntaxError] is the engine's own; the model gives
    every parse failure the same text. *)
Definition json_syntax_error : value := SyntaxError "Unexpected token in JSON".

Definition JSON_parse (text : string) : completion value :=
  match json_value (S (String.length text)) text with
  | Some (v, rest) =>
      match skip_ws rest with
      | EmptyString => Normal v
      | _ => Throw json_syntax_error
      end
  | None => Throw json_syntax_error
  end.

(* ------------------------------------------------------------------ *)
(** ** decodePaymentHeader *)

Definition requiredFields : list string := ["x402Version"; "scheme"; "network"; "payload"].

Definition missing_field (field : string) : value :=
  Error_ ("Missing required field in payment payload: " ++ field).

(** The [for] loop over the required fields. *)
Fixpoint check_fields (decodedPayment : value) (fields : list string) : completion unit :=
  match fields with
  | [] => Normal tt
  | field :: rest =>
      v <-- get_prop decodedPayment field ;;
      if nullish v then Throw (missing_field field)
      else check_fields decodedPayment rest
  end.

(** [v[name] = x] in strict code.  Only an object passes the field check
    that precedes the one assignment of this program, so the other cases
    are never reached; a primitive would throw, and an added named property
    of an array is not represented. *)
Definition set_prop (v : value) (name : string) (x : value) : completion value :=
  match v with
  | VObj props => Normal (VObj (obj_set props name x))
  | VArr _ | VError _ _ => Normal v
  | _ => Throw (TypeError ("Cannot create property '" ++ name ++ "'"))
  end.

Definition decodePaymentHeader (headerValue : string) (x402Version : Z) : completion value :=
  decodedPayment <-- JSON_parse headerValue ;;
  _ <-- check_fields decodedPayment requiredFields ;;
  set_prop decodedPayment "x402Version" (VNum (Fin (inject_Z x402Version))).

(* ------------------------------------------------------------------ *)
(** ** The facilitator and the handler's effects *)

(** What the handler does to its surroundings: a call of [next], a call of
    [res.status], a call of [res.json].  [res] and [next] are the host
    framework's; they record the call and do not throw. *)
Inductive event : Type :=
| CallNext
| ResStatus (code : Z)
| ResJson (body : value).

(** A computation of the handler: it extends the log of events and ends
    normally or by a throw (for the [async] handler as a whole, a rejected
    promise). *)
Definition M (A : Type) : Type := list event -> list event * completion A.

Definition mret {A} (a : A) : M A := fun log => (log, Normal a).

Definition mbind {A B} (m : M A) (k : A -> M B) : M B :=
  fun log =>
    match m log with
    | (log', Normal a) => k a log'
    | (log', Throw e) => (log', Throw e)
    end.

Definition mthrow {A} (e : value) : M A := fun log => (log, Throw e).

Definition lift {A} (c : completion A) : M A := fun log => (log, c).

Definition emit (e : event) : M unit := fun log => (log ++ [e], Normal tt).

(** [try { m } catch (error) { handler error }]. *)
Definition try_catch {A} (m : M A) (handler : value -> M A) : M A :=
  fun log =>
    match m log with
    | (log', Throw e) => handler e log'
    | r => r
    end.

Notation "x <- m ; k" := (mbind m (fun x => k))
  (at level 61, m at next level, right associativity).
Notation "m ;;; k" := (mbind m (fun _ => k))
  (at level 61, right associativity).

(** A property that may hold a function. *)
Inductive slot (A : Type) : Type :=
| Falsy                 (* undefined, null, or another falsy value *)
| NotFunction           (* a truthy value that is not a function *)
| Function (f : A).
Arguments Falsy {A}.
Arguments NotFunction {A}.
Arguments Function {A} f.

(** The [Response] of the verify call; [json] is the outcome of awaiting
    [response.json()]. *)
Record Response : Type := mkResponse {
  ok : bool;
  status : Z;
  statusText : string;
  json : completion value
}.

(** The second argument of [fetch]; [init_body] is the value that the
    source hands to [JSON.stringify]. *)
Record FetchInit : Type := mkFetchInit {
  init_method : string;
  init_headers : obj;
  init_body : value
}.

(** A [fetch] implementation, by the outcome of awaiting its call. *)
Definition fetch_impl : Type := string -> FetchInit -> completion Response.

Record Facilitator : Type := mkFacilitator {
  url : string;
  fetch : slot fetch_impl;
  verifyHeaders : value;
  createAuthHeaders : slot (completion value)  (* outcome of awaiting the hook *)
}.

Definition transport_unavailable : value :=
  Error_ "fetch implementation is required for facilitator verification".

Section Gate.

(** The process-wide [globalThis.fetch] and the [RegExp] constructor. *)
Variable globalThis_fetch : slot fetch_impl.
Variable RegExp_new : string -> completion RegExp.

Definition resolveFetch (facilitator : Facilitator) : completion fetch_impl :=
  let fetchImpl :=
    match fetch facilitator with
    | Falsy => globalThis_fetch
    | own => own
    end in
  match fetchImpl with
  | Function f => Normal f
  | _ => Throw transport_unavailable
  end.

Definition resolveFacilitatorHeaders (facilitator : Facilitator) : completion obj :=
  let headers := spread [] (or_else (verifyHeaders facilitator) (VObj [])) in
  match createAuthHeaders facilitator with
  | Function call =>
      generated <-- call ;;
      if truthy (get_prop_opt generated "verify")
      then Normal (spread headers (get_prop_opt generated "verify"))
      else Normal headers
  | _ => Normal headers
  end.

Definition x402Version : Z := 1.
Definition version_value : value := VNum (Fin (inject_Z x402Version)).

(** [res.status(402).json(body)] for a body whose evaluation has no
    effect and cannot throw. *)
Definition respond402 (body : obj) : M unit :=
  emit (ResStatus 402) ;;; emit (ResJson (VObj body)).

(** [res.status(402).json({ ... })] in general: the call [res.status(402)]
    is evaluated first, the object literal that is the argument of [json]
    next, and the call of [json] last.  When the evaluation of the literal
    throws, the status has been set and nothing has been written. *)
Definition respond402_with (body : M obj) : M unit :=
  emit (ResStatus 402) ;;;
  evaluated <- body ;
  emit (ResJson (VObj evaluated)).

Definition next : M unit := emit CallNext.

Definition challenge (message : value) (paymentRequirements : list value) : obj :=
  [ ("x402Version", version_value);
    ("error", message);
    ("accepts", VArr paymentRequirements) ].

(** The selection callback of [paymentRequirements.find]; both operands
    are objects here. *)
Definition selects (decodedPayment requirement : value) : bool :=
  strict_equal (get_prop_opt requirement "scheme") (get_prop_opt decodedPayment "scheme") &&
  strict_equal (get_prop_opt requirement "network") (get_prop_opt decodedPayment "network").

(** The options of the verify call. *)
Definition verify_request (headers : obj) (decodedPayment selectedPaymentRequirements : value)
    : FetchInit :=
  {| init_method := "POST";
     init_headers := spread [("Content-Type", VStr "application/json")] (VObj headers);
     init_body :=
       VObj [ ("x402Version", version_value);
              ("paymentPayload", decodedPayment);
              ("paymentRequirements", selectedPaymentRequirements) ] |}.

Definition verification_failed (response : Response) : value :=
  Error_ ("Facilitator verification failed: " ++
          String_of_Z (status response) ++ " " ++ statusText response).

(** The second [try] block.  The result tells whether the handler has
    returned inside the block. *)
Definition verify_block (facilitator : Facilitator) (decodedPayment : value)
    (selectedPaymentRequirements : value) (paymentRequirements : list value) : M bool :=
  fetchImpl <- lift (resolveFetch facilitator) ;
  let verifyUrl := (url facilitator ++ "/verify")%string in
  headers <- lift (resolveFacilitatorHeaders facilitator) ;
  response <- lift (fetchImpl verifyUrl
                      (verify_request headers decodedPayment selectedPaymentRequirements)) ;
  if negb (ok response) then
    mthrow (verification_failed response)
  else
    verificationResult <- lift (json response) ;
    isValid <- lift (get_prop verificationResult "isValid") ;
    if negb (truthy isValid) then
      respond402_with
        (invalidReason <- lift (get_prop verificationResult "invalidReason") ;
         payer <- lift (get_prop verificationResult "payer") ;
         mret [ ("x402Version", version_value);
                ("error", or_else invalidReason (VStr "Payment verification failed"));
                ("accepts", VArr paymentRequirements);
                ("payer", or_else payer (VStr "")) ]) ;;;
      mret true
    else mret false.

Definition paymentMiddlewareHandler (payTo : string) (routePatterns : list RoutePattern)
    (facilitator : Facilitator) (req : Request) : M unit :=
  matchingRoute <- lift (findMatchingRoute routePatterns (path req) (method req)) ;
  match matchingRoute with
  | None => next
  | Some route =>
      paymentRequirements <- lift (buildPaymentRequirements payTo (config route) req) ;
      match x_payment req with
      | None | Some EmptyString =>
          respond402 (challenge (VStr "X-PAYMENT header is required") paymentRequirements)
      | Some paymentHeader =>
          match decodePaymentHeader paymentHeader x402Version with
          | Throw error =>
              respond402_with
                (message <- lift (get_prop error "message") ;
                 mret (challenge
                         (or_else message (VStr "Invalid or malformed payment header"))
                         paymentRequirements))
          | Normal decodedPayment =>
              match find (selects decodedPayment) paymentRequirements with
              | None =>
                  respond402
                    (challenge (VStr "Unable to find matching payment requirements")
                       paymentRequirements)
              | Some selectedPaymentRequirements =>
                  returned <-
                    try_catch
                      (verify_block facilitator decodedPayment
                         selectedPaymentRequirements paymentRequirements)
                      (fun error =>
                         respond402_with
                           (message <- lift (get_prop error "message") ;
                            mret (challenge
                                    (or_else message (VStr "Payment verification failed"))
                                    paymentRequirements)) ;;;
                         mret true) ;
                  if returned then mret tt else next
              end
          end
      end
  end.

Definition paymentMiddleware (payTo : string) (routes : obj) (facilitator : Facilitator)
    : completion (Request -> M unit) :=
  match payTo with
  | EmptyString => Throw (Error_ "payTo is required")
  | _ =>
      routePatterns <-- computeRoutePatterns RegExp_new routes ;;
      Normal (paymentMiddlewareHandler payTo routePatterns facilitator)
  end.

(** The handler from the selection on: the second [try] block, its
    [catch] clause and the final call of [next]. *)
Definition after_selection (facilitator : Facilitator) (decodedPayment selected : value)
    (paymentRequirements : list value) : M unit :=
  returned <-
    try_catch
      (verify_block facilitator decodedPayment selected paymentRequirements)
      (fun error =>
         respond402_with
           (message <- lift (get_prop error "message") ;
            mret (challenge (or_else message (VStr "Payment verification failed"))
                    paymentRequirements)) ;;;
         mret true) ;
  if returned then mret tt else next.

(** What the [catch] clause of the second [try] block leaves behind: the
    status is set before [error.message] is read, so a caught value
    without properties ([null], [undefined]) leaves the status alone and
    the [TypeError] of the read escapes the handler. *)
Definition caught (error : value) (paymentRequirements : list value)
    : list event * completion unit :=
  match get_prop error "message" with
  | Normal message =>
      ([ ResStatus 402;
         ResJson (VObj (challenge (or_else message (VStr "Payment verification failed"))
                          paymentRequirements)) ],
       Normal tt)
  | Throw e => ([ResStatus 402], Throw e)
  end.

(** The rejection written inside the second [try] block, the two reads
    of the verification result being safe once [isValid] was read. *)
Definition rejection_body (verificationResult : value) (paymentRequirements : list value)
    : obj :=
  [ ("x402Version", version_value);
    ("error", or_else (get_prop_opt verificationResult "invalidReason")
                (VStr "Payment verification failed"));
    ("accepts", VArr paymentRequirements);
    ("payer", or_else (get_prop_opt verificationResult "payer") (VStr "")) ].

(** The verification exchange on its own, without the writes on [res]:
    the body of the facilitator's answer when the transport is there, the
    call resolves and the status is a success; the thrown value otherwise. *)
Definition exchange (facilitator : Facilitator) (decodedPayment : value)
    (selectedPaymentRequirements : value) : completion value :=
  fetchImpl <-- resolveFetch facilitator ;;
  headers <-- resolveFacilitatorHeaders facilitator ;;
  response <-- fetchImpl (url facilitator ++ "/verify")%string
                 (verify_request headers decodedPayment selectedPaymentRequirements) ;;
  if negb (ok response) then Throw (verification_failed response)
  else json response.

(** The two states of a request that end in a call of [next]: no route
    matches; or a route matches, the header decodes, a requirement is
    selected and the facilitator answers with a truthy [isValid]. *)
Definition unmatched (routePatterns : list RoutePattern) (req : Request) : Prop :=
  findMatchingRoute routePatterns (path req) (method req) = Normal None.

Definition admitted (payTo : string) (routePatterns : list RoutePattern)
    (facilitator : Facilitator) (req : Request) : Prop :=
  exists route paymentRequirements paymentHeader decodedPayment selected
         verificationResult isValid,
    findMatchingRoute routePatterns (path req) (method req) = Normal (Some route) /\
    buildPaymentRequirements payTo (config route) req = Normal paymentRequirements /\
    x_payment req = Some paymentHeader /\
    paymentHeader <> EmptyString /\
    decodePaymentHeader paymentHeader x402Version = Normal decodedPayment /\
    find (selects decodedPayment) paymentRequirements = Some selected /\
    exchange facilitator decodedPayment selected = Normal verificationResult /\
    get_prop verificationResult "isValid" = Normal isValid /\
    truthy isValid = true.

End Gate.

(** Running a handler on a fresh response recorder. *)
Definition run {A} (m : M A) : list event * completion A := m [].

(* ================================================================== *)
(** * Sample configurations *)

Definition price (n : Z) : value := VObj [("price", VNum (Fin (inject_Z n)))].

(** The route map of the unit tests. *)
Definition baseRoutes : obj :=
  [ ("network", VStr "bch"); ("GET /protected", price 1500); ("/open", VNum (Fin 1200)) ].

(** Two overlapping routes. *)
Definition specificRoutes : obj :=
  [ ("network", VStr "bch"); ("GET /a/*", price 900); ("GET /a/reports", price 1400) ].

Definition payToAddress : string := "bitcoincash:qq123exampleaddress0000000000000000".

Definition get_request (p : string) (header : option string) : Request :=
  {| protocol := "http"; host := "example.com"; path := p; method := "GET";
     x_payment := header |}.

Definition validPaymentPayload : string :=
  json_text "{'x402Version':1,'scheme':'utxo','network':'bch','payload':{'some':'data'}}".

(** A facilitator that holds nothing but its URL and, possibly, a transport. *)
Definition facilitator_with (f : slot fetch_impl) : Facilitator :=
  {| url := "http://facilitator.test"; fetch := f; verifyHeaders := VUndefined;
     createAuthHeaders := Falsy |}.

(** A transport whose verify call resolves with a success status and the
    given JSON body. *)
Definition responding (body : value) : fetch_impl :=
  fun _ _ => Normal {| ok := true; status := 200; statusText := "OK"; json := Normal body |}.

Definition approval : value := VObj [("isValid", VBool true)].

Definition rejection : value :=
  VObj [ ("isValid", VBool false); ("invalidReason", VStr "insufficient amount");
         ("payer", VStr "payer-id") ].

(** What an observer sees of a compiled pattern. *)
Definition describe (r : RoutePattern) : string * string * obj :=
  (verb r, source (pattern r), config r).

(** The requirement advertised for [GET /protected] of [baseRoutes]. *)
Definition protectedRequirement : value :=
  VObj [ ("scheme", VStr "utxo");
         ("network", VStr "bch");
         ("minAmountRequired", VStr "1500");
         ("resource", VStr "http://example.com/protected");
         ("description", VStr "");
         ("mimeType", VStr "");
         ("payTo", VStr payToAddress);
         ("maxTimeoutSeconds", VNum (Fin 60));
         ("asset", VStr DEFAULT_ASSET);
         ("outputSchema",
          VObj [("input", VObj [ ("type", VStr "http"); ("method", VStr "GET");
                                 ("discoverable", VBool true) ])]);
         ("extra", VObj []) ].

(** The middleware built from a route map with the reference engine, run
    on one request; [None] when construction throws. *)
Definition serve (globalFetch : slot fetch_impl) (routes : obj) (facilitator : Facilitator)
    (req : Request) : option (list event * completion unit) :=
  match paymentMiddleware globalFetch Engine.newRegExp payToAddress routes facilitator with
  | Normal handler => Some (run (handler req))
  | Throw _ => None
  end.

(** A route whose configured amount is negative. *)
Definition negativeRoutes : obj := [ ("/x", VObj [("minAmountRequired", VNum (Fin (-5)))]) ].

Definition challenge_written (message : string) (requirements : list value) : list event :=
  [ ResStatus 402; ResJson (VObj (challenge (VStr message) requirements)) ].

(** The patterns compiled from a route map by the reference engine
    (none when compilation throws). *)
Definition compiled (routes : obj) : list RoutePattern :=
  match computeRoutePatterns Engine.newRegExp routes with
  | Normal patterns => patterns
  | Throw _ => []
  end.

(** Two routes whose compiled sources have the same length and which both
    match [/a/b]. *)
Definition tiedRoutes : obj := [ ("/a/*", price 1); ("/*/b", price 2) ].

(** The outcome of compiling a route map with the reference engine, as an
    observer sees it. *)
Definition compile_and_describe (routes : obj) : completion (list (string * string * obj)) :=
  match computeRoutePatterns Engine.newRegExp routes with
  | Normal patterns => Normal (map describe patterns)
  | Throw e => Throw e
  end.

Definition bare_price : obj := [("price", VNum (Fin 1000)); ("network", VStr "bch")].

Definition tab : string := String (chr 9) EmptyString.

(** The [minAmountRequired] field of the requirements built for a route
    config. *)
Definition advertised_amount (routeConfig : obj) : completion value :=
  requirements <-- buildPaymentRequirements payToAddress routeConfig
                     (get_request "/x" None) ;;
  match requirements with
  | [requirement] => get_prop requirement "minAmountRequired"
  | _ => Normal VUndefined
  end.

Definition half : number := Fin (1 # 2)%Q.

(** The value that a key ends up with when the listed properties are
    copied one after the other: that of its last occurrence. *)
Definition last_lookup (o : obj) (k : string) : option value := obj_lookup (rev o) k.


(** The default network of a route map: [routes.network || DEFAULT_NETWORK]. *)
Definition global_network (routes : obj) : value :=
  or_else (obj_get routes "network") (VStr DEFAULT_NETWORK).

Definition is_slash (c : ascii) : bool := Ascii.eqb c "/".

(** Two slashes in a row somewhere in the string. *)
Fixpoint has_double_slash (s : string) : bool :=
  match s with
  | EmptyString => false
  | String c r =>
      (is_slash c && match r with String d _ => is_slash d | EmptyString => false end)
      || has_double_slash r
  end.

Definition has_backslash (s : string) : bool := existsb_string (Ascii.eqb "\") s.

Definition has_percent (s : string) : bool := existsb_string (Ascii.eqb "%") s.

(** A request for which the handler reaches the verification: a route
    matches, its requirements are built, the payment header is there and
    decodes, and a requirement is selected. *)
Definition reaches_verification (payTo : string) (routePatterns : list RoutePattern)
    (req : Request) (paymentRequirements : list value) (decodedPayment selected : value)
    : Prop :=
  exists route paymentHeader,
    findMatchingRoute routePatterns (path req) (method req) = Normal (Some route) /\
    buildPaymentRequirements payTo (config route) req = Normal paymentRequirements /\
    x_payment req = Some paymentHeader /\
    paymentHeader <> EmptyString /\
    decodePaymentHeader paymentHeader x402Version = Normal decodedPayment /\
    find (selects decodedPayment) paymentRequirements = Some selected.

(** The test suite's facilitator with static headers and an auth hook. *)
Definition hookedFacilitator (f : slot fetch_impl) : Facilitator :=
  {| url := "http://facilitator.test"; fetch := f;
     verifyHeaders := VObj [("x-custom", VStr "value")];
     createAuthHeaders :=
       Function (Normal (VObj [("verify", VObj [("Authorization", VStr "Bearer token")])])) |}.

(** The payment of [validPaymentPayload], decoded. *)
Definition decodedValidPayment : value :=
  VObj [ ("x402Version", VNum (Fin 1)); ("scheme", VStr "utxo"); ("network", VStr "bch");
         ("payload", VObj [("some", VStr "data")]) ].

Definition paidRequest : Request := get_request "/protected" (Some validPaymentPayload).

(** A facilitator record with another transport. *)
Definition with_fetch (facilitator : Facilitator) (f : slot fetch_impl) : Facilitator :=
  {| url := url facilitator; fetch := f; verifyHeaders := verifyHeaders facilitator;
     createAuthHeaders := createAuthHeaders facilitator |}.

(** The body of a 402 response, as the envelope
    [{ x402Version, error, accepts, payer? }]. *)
Definition is_challenge_envelope (body : value) (paymentRequirements : list value) : Prop :=
  get_prop body "x402Version" = Normal (VNum (Fin 1)) /\
  get_prop body "accepts" = Normal (VArr paymentRequirements) /\
  exists message, get_prop body "error" = Normal message /\ truthy message = true.

(** A transport that rejects with a network error. *)
Definition failingTransport : fetch_impl := fun _ _ => Throw (Error_ "network error").

(** A verify response with status 500, whose body cannot be read. *)
Definition serverError : Response :=
  {| ok := false; status := 500; statusText := "Internal Server Error";
     json := Throw VNull |}.

(** A facilitator whose auth hook rejects. *)
Definition expiredFacilitator : Facilitator :=
  {| url := "http://facilitator.test"; fetch := Function (responding approval);
     verifyHeaders := VUndefined;
     createAuthHeaders := Function (Throw (Error_ "token expired")) |}.

(** The characters that the path translation escapes. *)
Definition is_meta (c : ascii) : bool := char_in "$()+.?^{|}" c.

(** A character that the translation and the engine take for itself: no
    star, bracket or backslash, and no line terminator. *)
Definition literal_char (c : ascii) : bool :=
  negb (char_in "*[]\" c) && negb (is_line_terminator c).

(** A path without wildcards, bracketed parameters or backslashes. *)
Definition literal_path (p : string) : bool := forallb_string literal_char p.

(** The pattern text of one literal character. *)
Definition literal_regex_char (c : ascii) : string :=
  if is_meta c || is_slash c then String "\" (String c EmptyString)
  else String c EmptyString.

Fixpoint literal_regex (p : string) : string :=
  match p with
  | EmptyString => EmptyString
  | String c r => (literal_regex_char c ++ literal_regex r)%string
  end.

Fixpoint literal_items (p : string) : list Engine.item :=
  match p with
  | EmptyString => [Engine.AssertEnd]
  | String c r => Engine.One (Engine.Lit c) :: literal_items r
  end.

Unset Implicit Arguments.

(* ================================================================== *)
(** * Route matching *)

Section Matching.

Variable routePatterns : list RoutePattern.
Variables path method : string.

(** The accumulator of [reduce] is the first of the longest candidates:
    with [pre ++ acc :: mid] read so far, everything in [pre] is strictly
    shorter than [acc] and nothing in [mid] is longer. *)
Lemma fold_longer_first_max :
  forall rest pre acc mid,
    Forall (fun c => source_length c < source_length acc) pre ->
    Forall (fun c => source_length c <= source_length acc) mid ->
    exists l1 l2,
      pre ++ acc :: mid ++ rest = l1 ++ fold_left longer rest acc :: l2 /\
      Forall (fun c => source_length c < source_length (fold_left longer rest acc)) l1 /\
      Forall (fun c => source_length c <= source_length (fold_left longer rest acc)) l2.
Proof.
  induction rest as [| b rest IH]; intros pre acc mid Hpre Hmid; simpl.
  - exists pre, mid. rewrite app_nil_r. auto.
  - destruct (source_length acc <? source_length b) eqn:Hlt.
    + assert (Hl : longer acc b = b) by (unfold longer; rewrite Hlt; reflexivity).
      rewrite Hl. apply Nat.ltb_lt in Hlt.
      destruct (IH (pre ++ acc :: mid) b []) as (l1 & l2 & Heq & H1 & H2).
      * apply Forall_app; split.
        { eapply Forall_impl; [| exact Hpre]. simpl; intros; lia. }
        constructor; [exact Hlt |].
        eapply Forall_impl; [| exact Hmid]. simpl; intros; lia.
      * constructor.
      * exists l1, l2. split; [| auto].
        rewrite <- Heq. rewrite <- !app_assoc. reflexivity.
    + assert (Hl : longer acc b = acc) by (unfold longer; rewrite Hlt; reflexivity).
      rewrite Hl. apply Nat.ltb_ge in Hlt.
      destruct (IH pre acc (mid ++ [b])) as (l1 & l2 & Heq & H1 & H2).
      * exact Hpre.
      * apply Forall_app; split; [exact Hmid | constructor; [exact Hlt | constructor]].
      * exists l1, l2. split; [| auto].
        rewrite <- Heq. rewrite <- !app_assoc. reflexivity.
Qed.

Lemma reduce_longer_first_max :
  forall a rest,
    exists l1 l2,
      a :: rest = l1 ++ fold_left longer rest a :: l2 /\
      Forall (fun c => source_length c < source_length (fold_left longer rest a)) l1 /\
      Forall (fun c => source_length c <= source_length (fold_left longer rest a)) l2.
Proof.
  intros a rest.
  destruct (fold_longer_first_max rest [] a []) as (l1 & l2 & Heq & H1 & H2);
    [constructor | constructor |].
  exists l1, l2. auto.
Qed.

(** With a path that normalizes and at least one candidate, the match is
    the first of the longest candidates. *)
Lemma findMatchingRoute_first_max :
  forall normalizedPath,
    normalizePath path = Normal normalizedPath ->
    candidates_of routePatterns normalizedPath method <> [] ->
    exists r l1 l2,
      findMatchingRoute routePatterns path method = Normal (Some r) /\
      candidates_of routePatterns normalizedPath method = l1 ++ r :: l2 /\
      Forall (fun c => source_length c < source_length r) l1 /\
      Forall (fun c => source_length c <= source_length r) l2.
Proof.
  intros np Hnp Hne. unfold findMatchingRoute. rewrite Hnp.
  destruct (candidates_of routePatterns np method) as [| a rest] eqn:Hc; [congruence |].
  destruct (reduce_longer_first_max a rest) as (l1 & l2 & Heq & H1 & H2).
  exists (fold_left longer rest a), l1, l2. auto.
Qed.

(** Without candidates there is no match. *)
Lemma findMatchingRoute_none :
  forall normalizedPath,
    normalizePath path = Normal normalizedPath ->
    candidates_of routePatterns normalizedPath method = [] ->
    findMatchingRoute routePatterns path method = Normal None.
Proof.
  intros np Hnp Hc. unfold findMatchingRoute. rewrite Hnp, Hc. reflexivity.
Qed.

(** The [try] block absorbs every throw of the normalization. *)
Lemma findMatchingRoute_never_throws :
  exists result, findMatchingRoute routePatterns path method = Normal result.
Proof.
  unfold findMatchingRoute.
  destruct (normalizePath path) as [np | e]; [| eexists; reflexivity].
  destruct (candidates_of routePatterns np method); eexists; reflexivity.
Qed.

Lemma findMatchingRoute_decode_failure :
  forall e,
    decodeURIComponent (before_query path) = Throw e ->
    findMatchingRoute routePatterns path method = Normal None.
Proof.
  intros e He. unfold findMatchingRoute, normalizePath. rewrite He. reflexivity.
Qed.

End Matching.

(** C4.  Among several candidates (the compiled regex matches the
    normalized path and the verb is the wildcard or the upper-cased method)
    [findMatchingRoute] returns a candidate whose regex source is at least
    as long as that of every candidate.  In particular, with the routes
    [GET /a/*] (900) and [GET /a/reports] (1400), both are candidates for
    [GET /a/reports] and the [/a/reports] route is returned. *)
Theorem C4_longest_source_wins :
  (forall routePatterns path method normalizedPath,
      normalizePath path = Normal normalizedPath ->
      candidates_of routePatterns normalizedPath method <> [] ->
      exists r,
        findMatchingRoute routePatterns path method = Normal (Some r) /\
        In r (candidates_of routePatterns normalizedPath method) /\
        forall c, In c (candidates_of routePatterns normalizedPath method) ->
                  source_length c <= source_length r) /\
  (exists r,
      findMatchingRoute (compiled specificRoutes) "/a/reports" "GET" = Normal (Some r) /\
      describe r =
        ("GET", "^\/a\/reports$", [("network", VStr "bch"); ("price", VNum (Fin 1400))]) /\
      map describe (candidates_of (compiled specificRoutes) "/a/reports" "GET") =
        [ ("GET", "^\/a\/.*?$", [("network", VStr "bch"); ("price", VNum (Fin 900))]);
          ("GET", "^\/a\/reports$", [("network", VStr "bch"); ("price", VNum (Fin 1400))]) ]).
Proof.
  split.
  - intros routePatterns path method np Hnp Hne.
    destruct (findMatchingRoute_first_max routePatterns path method np Hnp Hne)
      as (r & l1 & l2 & Hfind & Hsplit & H1 & H2).
    exists r. split; [exact Hfind |]. rewrite Hsplit. split.
    + apply in_or_app. right. left. reflexivity.
    + intros c Hc. apply in_app_or in Hc. destruct Hc as [Hc | [Hc | Hc]].
      * apply Nat.lt_le_incl. revert c Hc. apply Forall_forall. exact H1.
      * subst c. apply Nat.le_refl.
      * revert c Hc. apply Forall_forall. exact H2.
  - eexists. split; [vm_compute; reflexivity |]. split; vm_compute; reflexivity.
Qed.

Lemma C4_witness :
  exists r,
    findMatchingRoute (compiled specificRoutes) "/a/reports" "GET" = Normal (Some r) /\
    In r (candidates_of (compiled specificRoutes) "/a/reports" "GET") /\
    forall c, In c (candidates_of (compiled specificRoutes) "/a/reports" "GET") ->
              source_length c <= source_length r.
Proof.
  apply (proj1 C4_longest_source_wins (compiled specificRoutes) "/a/reports" "GET"
           "/a/reports").
  - vm_compute; reflexivity.
  - vm_compute; discriminate.
Defined.

(** C5.  [findMatchingRoute] never throws, whatever the pattern list, path
    and method: it ends normally, and when percent-decoding of the path
    without its query fails it returns no match.  The path [/%E0%A4%A] is
    such a path. *)
Theorem C5_malformed_path_is_no_match :
  forall routePatterns path method,
    (exists result, findMatchingRoute routePatterns path method = Normal result) /\
    (forall e, decodeURIComponent (before_query path) = Throw e ->
               findMatchingRoute routePatterns path method = Normal None) /\
    decodeURIComponent (before_query "/%E0%A4%A") = Throw uri_malformed /\
    findMatchingRoute routePatterns "/%E0%A4%A" method = Normal None.
Proof.
  intros routePatterns path method.
  split; [| split; [| split]].
  - apply findMatchingRoute_never_throws.
  - apply findMatchingRoute_decode_failure.
  - vm_compute; reflexivity.
  - apply (findMatchingRoute_decode_failure routePatterns "/%E0%A4%A" method uri_malformed).
    vm_compute; reflexivity.
Qed.

Lemma C5_witness :
  findMatchingRoute (compiled baseRoutes) "/%E0%A4%A" "GET" = Normal None.
Proof.
  apply (proj1 (proj2 (C5_malformed_path_is_no_match (compiled baseRoutes) "/%E0%A4%A" "GET"))
           uri_malformed).
  vm_compute; reflexivity.
Defined.

(** C9.  When several candidates share the greatest source length,
    [findMatchingRoute] returns the one that comes first in the compiled
    pattern list: every candidate before the returned one is strictly
    shorter, none after it is longer, and the reducer keeps its
    accumulator unless the next candidate is strictly longer. *)
Theorem C9_ties_keep_the_earliest :
  (forall routePatterns path method normalizedPath,
      normalizePath path = Normal normalizedPath ->
      candidates_of routePatterns normalizedPath method <> [] ->
      exists r before after,
        findMatchingRoute routePatterns path method = Normal (Some r) /\
        candidates_of routePatterns normalizedPath method = before ++ r :: after /\
        Forall (fun c => source_length c < source_length r) before /\
        Forall (fun c => source_length c <= source_length r) after) /\
  (forall a b, source_length b <= source_length a -> longer a b = a) /\
  (forall a b, source_length a < source_length b -> longer a b = b).
Proof.
  split; [| split].
  - intros routePatterns path method np Hnp Hne.
    exact (findMatchingRoute_first_max routePatterns path method np Hnp Hne).
  - intros a b H. unfold longer.
    destruct (source_length a <? source_length b) eqn:E; [| reflexivity].
    apply Nat.ltb_lt in E. lia.
  - intros a b H. unfold longer. apply Nat.ltb_lt in H. rewrite H. reflexivity.
Qed.

Lemma C9_witness :
  exists r before after,
    findMatchingRoute (compiled tiedRoutes) "/a/b" "GET" = Normal (Some r) /\
    candidates_of (compiled tiedRoutes) "/a/b" "GET" = before ++ r :: after /\
    Forall (fun c => source_length c < source_length r) before /\
    Forall (fun c => source_length c <= source_length r) after.
Proof.
  apply (proj1 C9_ties_keep_the_earliest (compiled tiedRoutes) "/a/b" "GET" "/a/b").
  - vm_compute; reflexivity.
  - vm_compute; discriminate.
Defined.

(** The tie of [tiedRoutes], evaluated: both routes are candidates with
    sources of ten characters, and the first one listed is returned. *)
Example tiedRoutes_first_listed_wins :
  map (fun r => (describe r, source_length r))
      (candidates_of (compiled tiedRoutes) "/a/b" "GET") =
    [ (("*", "^\/a\/.*?$", [("network", VStr "bch"); ("price", VNum (Fin 1))]), 10);
      (("*", "^\/.*?\/b$", [("network", VStr "bch"); ("price", VNum (Fin 2))]), 10) ] /\
  option_map describe
    (match findMatchingRoute (compiled tiedRoutes) "/a/b" "GET" with
     | Normal o => o
     | Throw _ => None
     end) =
    Some ("*", "^\/a\/.*?$", [("network", VStr "bch"); ("price", VNum (Fin 1))]).
Proof. split; vm_compute; reflexivity. Qed.

(* ================================================================== *)
(** * Payment header decoding *)

Lemma obj_get_set_same :
  forall (o : obj) k v, obj_get (obj_set o k v) k = v.
Proof.
  intros o k v. unfold obj_get.
  induction o as [| [k' v'] o IH]; simpl.
  - rewrite String.eqb_refl. reflexivity.
  - destruct (String.eqb k k') eqn:E; simpl; rewrite E; [reflexivity | exact IH].
Qed.

Lemma obj_get_set_other :
  forall (o : obj) k k' v, k <> k' -> obj_get (obj_set o k v) k' = obj_get o k'.
Proof.
  intros o k k' v Hne. unfold obj_get.
  induction o as [| [k0 v0] o IH]; simpl.
  - destruct (String.eqb k' k) eqn:E; [| reflexivity].
    apply String.eqb_eq in E. congruence.
  - destruct (String.eqb k k0) eqn:E; simpl.
    + apply String.eqb_eq in E. subst k0.
      destruct (String.eqb k' k) eqn:E'; [| reflexivity].
      apply String.eqb_eq in E'. congruence.
    + destruct (String.eqb k' k0); [reflexivity | exact IH].
Qed.

(** The loop reports the first required field that is absent or null. *)
Lemma check_fields_first_missing :
  forall props before field after,
    Forall (fun g => nullish (obj_get props g) = false) before ->
    nullish (obj_get props field) = true ->
    check_fields (VObj props) (before ++ field :: after) = Throw (missing_field field).
Proof.
  intros props before field after Hbefore Hfield.
  induction Hbefore as [| g before Hg _ IH]; simpl.
  - rewrite Hfield. reflexivity.
  - rewrite Hg. exact IH.
Qed.

Lemma check_fields_all_present :
  forall props fields,
    Forall (fun g => nullish (obj_get props g) = false) fields ->
    check_fields (VObj props) fields = Normal tt.
Proof.
  intros props fields H. induction H as [| g fields Hg _ IH]; simpl.
  - reflexivity.
  - rewrite Hg. exact IH.
Qed.

(** Only an object that holds the four fields passes the loop. *)
Lemma check_fields_passes_object :
  forall v,
    check_fields v requiredFields = Normal tt ->
    exists props,
      v = VObj props /\ Forall (fun g => nullish (obj_get props g) = false) requiredFields.
Proof.
  intros v H. destruct v as [| | b | n | s | items | props | name message];
    try (simpl in H; discriminate).
  exists props. split; [reflexivity |].
  unfold requiredFields in *. simpl in H.
  repeat match type of H with
         | context [nullish (obj_get props ?f)] =>
             destruct (nullish (obj_get props f)) eqn:?; [discriminate |]
         end.
  repeat constructor; assumption.
Qed.

(** What [decodePaymentHeader] does on every header that parses to a value
    other than [null]: a parse error is passed on; a value lacking a
    required field (absent or null) fails with the error naming the first
    such field; and a successful decode is the parsed object with its
    version replaced. *)
Lemma decodePaymentHeader_parse_error :
  forall header version e,
    JSON_parse header = Throw e -> decodePaymentHeader header version = Throw e.
Proof. intros header version e H. unfold decodePaymentHeader. rewrite H. reflexivity. Qed.

Lemma decodePaymentHeader_missing :
  forall header version props before field after,
    JSON_parse header = Normal (VObj props) ->
    requiredFields = before ++ field :: after ->
    Forall (fun g => nullish (obj_get props g) = false) before ->
    nullish (obj_get props field) = true ->
    decodePaymentHeader header version = Throw (missing_field field).
Proof.
  intros header version props before field after Hparse Hsplit Hbefore Hfield.
  unfold decodePaymentHeader. rewrite Hparse. cbn [cbind]. rewrite Hsplit.
  rewrite (check_fields_first_missing props before field after Hbefore Hfield).
  reflexivity.
Qed.

Lemma decodePaymentHeader_success :
  forall header version decoded,
    decodePaymentHeader header version = Normal decoded ->
    exists props,
      JSON_parse header = Normal (VObj props) /\
      Forall (fun g => nullish (obj_get props g) = false) requiredFields /\
      decoded = VObj (obj_set props "x402Version" (VNum (Fin (inject_Z version)))) /\
      get_prop decoded "x402Version" = Normal (VNum (Fin (inject_Z version))).
Proof.
  intros header version decoded H. unfold decodePaymentHeader in H.
  destruct (JSON_parse header) as [v | e]; [| discriminate]. cbn [cbind] in H.
  destruct (check_fields v requiredFields) as [[] | e] eqn:Hc; [| discriminate].
  destruct (check_fields_passes_object v Hc) as (props & -> & Hall).
  cbn [cbind set_prop] in H. injection H as <-.
  exists props. repeat split; try assumption; try reflexivity.
  simpl. rewrite obj_get_set_same. reflexivity.
Qed.

(** Scalars and arrays hold none of the required fields, and fail on the
    first. *)
Lemma decodePaymentHeader_not_an_object :
  forall header version v,
    JSON_parse header = Normal v ->
    match v with VBool _ | VNum _ | VStr _ | VArr _ => True | _ => False end ->
    decodePaymentHeader header version = Throw (missing_field "x402Version").
Proof.
  intros header version v Hparse Hv. unfold decodePaymentHeader. rewrite Hparse.
  destruct v; try contradiction; reflexivity.
Qed.

(** C6.  The header [null] is valid JSON in which none of the four fields
    is present, yet decoding it does not fail with the missing-field error:
    reading the first field of [null] throws a [TypeError]. *)
Theorem C6_null_header_is_a_type_error :
  JSON_parse "null" = Normal VNull /\
  decodePaymentHeader "null" 1 =
    Throw (TypeError "Cannot read properties of null (reading 'x402Version')") /\
  decodePaymentHeader "null" 1 <> Throw (missing_field "x402Version").
Proof.
  split; [vm_compute; reflexivity |].
  split; [vm_compute; reflexivity |].
  vm_compute. discriminate.
Qed.

(** C10.  A required field that is present with the value [null] is
    rejected like an absent one: when the fields checked before it are
    present, a JSON object whose [field] is [null] fails decoding with the
    missing-field error naming [field], and so does the object without
    [field]. *)
Theorem C10_null_field_is_missing :
  forall header props before field after,
    JSON_parse header = Normal (VObj props) ->
    requiredFields = before ++ field :: after ->
    Forall (fun g => nullish (obj_get props g) = false) before ->
    (obj_lookup props field = Some VNull ->
     decodePaymentHeader header 1 = Throw (missing_field field)) /\
    (obj_lookup props field = None ->
     decodePaymentHeader header 1 = Throw (missing_field field)).
Proof.
  intros header props before field after Hparse Hsplit Hbefore.
  split; intros Hfield;
    apply (decodePaymentHeader_missing header 1 props before field after
             Hparse Hsplit Hbefore);
    unfold obj_get; rewrite Hfield; reflexivity.
Qed.

Lemma C10_witness :
  decodePaymentHeader
    (json_text "{'x402Version':1,'scheme':null,'network':'bch','payload':{}}") 1 =
  Throw (missing_field "scheme").
Proof.
  apply (proj1 (C10_null_field_is_missing
                  (json_text "{'x402Version':1,'scheme':null,'network':'bch','payload':{}}")
                  [ ("x402Version", VNum (Fin 1)); ("scheme", VNull);
                    ("network", VStr "bch"); ("payload", VObj []) ]
                  ["x402Version"] "scheme" ["network"; "payload"]
                  ltac:(vm_compute; reflexivity)
                  ltac:(reflexivity)
                  ltac:(repeat constructor))).
  reflexivity.
Defined.

(** Each of the four fields, set to [null] in an otherwise complete
    header, is the field the error names. *)
Example null_valued_fields_are_named :
  decodePaymentHeader
    (json_text "{'x402Version':null,'scheme':'utxo','network':'bch','payload':{}}") 1 =
    Throw (missing_field "x402Version") /\
  decodePaymentHeader
    (json_text "{'x402Version':1,'scheme':null,'network':'bch','payload':{}}") 1 =
    Throw (missing_field "scheme") /\
  decodePaymentHeader
    (json_text "{'x402Version':1,'scheme':'utxo','network':null,'payload':{}}") 1 =
    Throw (missing_field "network") /\
  decodePaymentHeader
    (json_text "{'x402Version':1,'scheme':'utxo','network':'bch','payload':null}") 1 =
    Throw (missing_field "payload").
Proof. repeat split; vm_compute; reflexivity. Qed.

(* ================================================================== *)
(** * Route keys *)

Lemma rev_string_acc_nonempty :
  forall s acc, acc <> EmptyString -> rev_string_acc s acc <> EmptyString.
Proof.
  induction s as [| c s IH]; intros acc Hacc; simpl.
  - exact Hacc.
  - apply IH. discriminate.
Qed.

Lemma rev_string_nonempty :
  forall s, s <> EmptyString -> rev_string s <> EmptyString.
Proof.
  intros [| c s] H; [congruence |].
  unfold rev_string. simpl. apply rev_string_acc_nonempty. discriminate.
Qed.

Lemma str_or_empty :
  forall a b, str_or a b = EmptyString <-> a = EmptyString /\ b = EmptyString.
Proof.
  intros a b. destruct a; simpl; split.
  - intros ->. auto.
  - intros [_ ->]. reflexivity.
  - discriminate.
  - intros [H _]. discriminate.
Qed.

(** Inside a run of white space that lasts to the end, the piece being
    read is the last one. *)
Lemma split_ws_aux_spaces_in_run :
  forall s cur,
    forallb_string is_space s = true -> split_ws_aux s cur true = [rev_string cur].
Proof.
  induction s as [| c s IH]; intros cur H; simpl in *.
  - reflexivity.
  - apply andb_prop in H. destruct H as [Hc Hs]. rewrite Hc. apply IH. exact Hs.
Qed.

Lemma split_ws_all_spaces :
  forall s,
    s <> EmptyString -> forallb_string is_space s = true ->
    split_ws s = [EmptyString; EmptyString].
Proof.
  intros [| c s] Hne H; [congruence |]. simpl in H.
  apply andb_prop in H. destruct H as [Hc Hs].
  unfold split_ws. simpl. rewrite Hc.
  rewrite (split_ws_aux_spaces_in_run s EmptyString Hs). reflexivity.
Qed.

(** A piece under way is not empty when it is emitted. *)
Lemma split_ws_aux_head_nonempty :
  forall s cur,
    cur <> EmptyString -> nth_string (split_ws_aux s cur false) 0 <> EmptyString.
Proof.
  induction s as [| c s IH]; intros cur Hcur; simpl.
  - apply rev_string_nonempty. exact Hcur.
  - destruct (is_space c).
    + simpl. apply rev_string_nonempty. exact Hcur.
    + apply IH. discriminate.
Qed.

Lemma split_ws_aux_after_run_nonempty :
  forall s,
    forallb_string is_space s = false ->
    nth_string (split_ws_aux s EmptyString true) 0 <> EmptyString.
Proof.
  induction s as [| c s IH]; intros H; simpl in *.
  - discriminate.
  - destruct (is_space c); simpl in H.
    + apply IH. exact H.
    + apply split_ws_aux_head_nonempty. discriminate.
Qed.

Lemma includes_space_nonempty :
  forall key, includes_space key = true -> key <> EmptyString.
Proof. intros [| c s] H; [discriminate | discriminate]. Qed.

(** The path of a key is empty exactly when the key contains a space
    character and consists of white space only. *)
Lemma key_path_empty_iff :
  forall key,
    key_path key = EmptyString <->
    includes_space key = true /\ forallb_string is_space key = true.
Proof.
  intros key. unfold key_path, key_parts.
  destruct (includes_space key) eqn:Hsp.
  - destruct (forallb_string is_space key) eqn:Hall.
    + rewrite (split_ws_all_spaces key (includes_space_nonempty key Hsp) Hall).
      simpl. split; auto.
    + split; [| intros [_ H]; discriminate].
      intros H. apply str_or_empty in H. destruct H as [H1 H0]. exfalso.
      destruct key as [| c s]; [discriminate |].
      unfold split_ws in H0, H1. simpl in H0, H1, Hall.
      destruct (is_space c); simpl in Hall.
      * simpl in H1. exact (split_ws_aux_after_run_nonempty s Hall H1).
      * exact (split_ws_aux_head_nonempty s (String c EmptyString)
                 ltac:(discriminate) H0).
  - split; [| intros [H _]; discriminate].
    simpl. destruct key; discriminate.
Qed.

(** Whatever the engine, an entry fails with [InvalidRoutePattern] exactly
    when its path is empty; otherwise the one pattern entry it yields
    stands or falls with the [RegExp] constructor. *)
Lemma compileEntry_outcome :
  forall RegExp_new key v,
    (key_path key = EmptyString /\
     compileEntry RegExp_new (key, v) = Throw (invalid_route_pattern key)) \/
    (key_path key <> EmptyString /\
     compileEntry RegExp_new (key, v) =
       match RegExp_new (regexPattern_of (key_path key)) with
       | Normal re =>
           Normal {| verb := key_verb key; pattern := re; config := own_props v |}
       | Throw e => Throw e
       end).
Proof.
  intros RegExp_new key v. unfold compileEntry. simpl.
  destruct (key_path key) eqn:Hp.
  - left. auto.
  - right. split; [discriminate | reflexivity].
Qed.

(** C7.  Keys without a path that compile all the same: the empty key
    becomes the catch-all pattern, a verb followed by a space takes the
    verb for its path, and a key made of a tab is its own path; only a
    white-space key containing a space fails with [InvalidRoutePattern].
    A key with a path may also fail otherwise: an unclosed bracket is a
    syntax error of the regular expression. *)
Theorem C7_keys_without_path_compile :
  compile_and_describe [("", VNum (Fin 1000))] = Normal [("*", "^.*?$", bare_price)] /\
  compile_and_describe [("GET ", VNum (Fin 1000))] = Normal [("GET", "^GET$", bare_price)] /\
  compile_and_describe [(tab, VNum (Fin 1000))] = Normal [("*", ("^" ++ tab ++ "$")%string, bare_price)] /\
  compile_and_describe [(" ", VNum (Fin 1000))] = Throw (invalid_route_pattern " ") /\
  (exists r,
      compiled [("", VNum (Fin 1000))] = [r] /\
      findMatchingRoute [r] "/any/path" "DELETE" = Normal (Some r)) /\
  (exists message,
      compile_and_describe [("/a[", VNum (Fin 1000))] = Throw (SyntaxError message)).
Proof.
  repeat split; try (vm_compute; reflexivity).
  - eexists. split; vm_compute; reflexivity.
  - eexists. vm_compute. reflexivity.
Qed.

(* ================================================================== *)
(** * Amounts *)

Lemma Math_floor_nonneg :
  forall q, Qle_bool q 0 = false -> (0 <= Math_floor q)%Z.
Proof.
  intros q H. unfold Math_floor.
  assert (Hq : (0 <= q)%Q).
  { apply Qlt_le_weak. apply Qnot_le_lt. intros Hle.
    apply Qle_bool_iff in Hle. congruence. }
  apply Qfloor_resp_le in Hq. exact Hq.
Qed.

(** An accepted route config yields an integer that is not negative, and
    the requirement carries its decimal digits. *)
Lemma resolveMinAmountRequired_nonneg :
  forall routeConfig z,
    resolveMinAmountRequired routeConfig = Normal z -> (0 <= z)%Z.
Proof.
  intros routeConfig z. unfold resolveMinAmountRequired.
  destruct (negb (nullish (obj_get routeConfig "minAmountRequired"))).
  - destruct (ToNumber (obj_get routeConfig "minAmountRequired")) as [| neg | q];
      try discriminate.
    simpl. destruct (Qle_bool q 0) eqn:Hq; [discriminate |].
    intros H. injection H as <-. apply Math_floor_nonneg. exact Hq.
  - assert (Hdefault : Normal DEFAULT_MIN_AMOUNT = Normal z -> (0 <= z)%Z).
    { intros H. injection H as <-. unfold DEFAULT_MIN_AMOUNT. lia. }
    destruct (obj_get routeConfig "price") as [| | b | n | s | items | props | name message];
      try exact Hdefault.
    + destruct n as [| neg | q]; try exact Hdefault.
      simpl. unfold Qpos_b. destruct (Qle_bool q 0) eqn:Hq; simpl; [exact Hdefault |].
      intros H. injection H as <-. apply Math_floor_nonneg. exact Hq.
    + destruct (StringToNumber (filter_string is_digit_or_dot (trim s))) as [| neg | q];
        try exact Hdefault.
      simpl. unfold Qpos_b. destruct (Qle_bool q 0) eqn:Hq; simpl; [exact Hdefault |].
      destruct (has_satoshi_suffix (trim s) || all_digits (trim s)); [| exact Hdefault].
      intros H. injection H as <-. apply Math_floor_nonneg. exact Hq.
Qed.

Lemma buildPaymentRequirements_amount :
  forall payTo routeConfig req requirements,
    buildPaymentRequirements payTo routeConfig req = Normal requirements ->
    exists z requirement,
      resolveMinAmountRequired routeConfig = Normal z /\ (0 <= z)%Z /\
      requirements = [requirement] /\
      get_prop requirement "minAmountRequired" = Normal (VStr (String_of_Z z)).
Proof.
  intros payTo routeConfig req requirements H. unfold buildPaymentRequirements in H.
  destruct (resolveMinAmountRequired routeConfig) as [z | e] eqn:Hz; [| discriminate].
  cbn [cbind] in H. injection H as <-.
  eexists z, _. split; [reflexivity |]. split.
  - exact (resolveMinAmountRequired_nonneg routeConfig z Hz).
  - split; reflexivity.
Qed.

(** C3.  A route config whose amount lies strictly between 0 and 1 passes
    the positivity check and is then floored: the requirement advertises
    the amount ["0"].  This holds for [minAmountRequired: 0.5], for the
    numeric price [0.5] and for the price ["0.5 sats"]. *)
Theorem C3_fraction_below_one_is_advertised_as_zero :
  advertised_amount [("minAmountRequired", VNum half)] = Normal (VStr "0") /\
  advertised_amount [("price", VNum half)] = Normal (VStr "0") /\
  advertised_amount [("price", VStr "0.5 sats")] = Normal (VStr "0").
Proof. repeat split; vm_compute; reflexivity. Qed.

(* ================================================================== *)
(** * The request handler *)

Lemma get_prop_defined :
  forall v name, nullish v = false -> exists x, get_prop v name = Normal x.
Proof.
  intros v name H. destruct v; try discriminate; simpl; eexists; reflexivity.
Qed.

(** A value one property of which can be read lets every property be
    read. *)
Lemma get_prop_total :
  forall v name x name',
    get_prop v name = Normal x -> get_prop v name' = Normal (get_prop_opt v name').
Proof.
  intros v name x name' H. unfold get_prop_opt.
  destruct v; try discriminate; reflexivity.
Qed.

(** What the header decoder throws is an [Error] object. *)
Lemma check_fields_throws_error :
  forall v fields e,
    check_fields v fields = Throw e -> nullish e = false.
Proof.
  intros v fields e. induction fields as [| f fields IH]; simpl; [discriminate |].
  destruct (get_prop v f) as [x | e'] eqn:Hg; simpl.
  - destruct (nullish x); [| exact IH].
    intros H. injection H as <-. reflexivity.
  - intros H. injection H as <-. destruct v; try discriminate; simpl in Hg;
      injection Hg as <-; reflexivity.
Qed.

Lemma decodePaymentHeader_throws_error :
  forall header version e,
    decodePaymentHeader header version = Throw e -> nullish e = false.
Proof.
  intros header version e. unfold decodePaymentHeader.
  destruct (JSON_parse header) as [v | e'] eqn:Hp; cbn [cbind].
  - destruct (check_fields v requiredFields) as [[] | e'] eqn:Hc; cbn [cbind].
    + destruct (check_fields_passes_object v Hc) as (props & -> & _). discriminate.
    + intros H. injection H as <-. exact (check_fields_throws_error v requiredFields e' Hc).
  - intros H. injection H as <-. unfold JSON_parse in Hp.
    destruct (json_value (S (String.length header)) header) as [[v rest] |].
    + destruct (skip_ws rest); [discriminate |]. injection Hp as <-. reflexivity.
    + injection Hp as <-. reflexivity.
Qed.

Section Handler.

Variable globalFetch : slot fetch_impl.
Variable payTo : string.
Variable routePatterns : list RoutePattern.
Variable facilitator : Facilitator.
Variable req : Request.

Lemma respond402_run :
  forall body log,
    respond402 body log = (log ++ [ResStatus 402; ResJson (VObj body)], Normal tt).
Proof.
  intros body log. unfold respond402, mbind, emit. rewrite <- app_assoc. reflexivity.
Qed.

Lemma respond402_with_run :
  forall (body : M obj) log,
    respond402_with body log =
    match body (log ++ [ResStatus 402]) with
    | (log', Normal evaluated) => (log' ++ [ResJson (VObj evaluated)], Normal tt)
    | (log', Throw e) => (log', Throw e)
    end.
Proof.
  intros body log. unfold respond402_with, mbind, emit.
  destruct (body (log ++ [ResStatus 402])) as [log' [evaluated | e]]; reflexivity.
Qed.

(** The second [try] block, by the outcome of the exchange. *)
Lemma verify_block_outcome :
  forall decodedPayment selected paymentRequirements log,
    verify_block globalFetch facilitator decodedPayment selected paymentRequirements log =
    match exchange globalFetch facilitator decodedPayment selected with
    | Throw e => (log, Throw e)
    | Normal verificationResult =>
        match get_prop verificationResult "isValid" with
        | Throw e => (log, Throw e)
        | Normal isValid =>
            if truthy isValid then (log, Normal false)
            else (log ++ [ ResStatus 402;
                           ResJson (VObj (rejection_body verificationResult
                                            paymentRequirements)) ],
                  Normal true)
        end
    end.
Proof.
  intros dp sel reqs log. unfold verify_block, exchange, mbind, lift, mthrow, mret.
  destruct (resolveFetch globalFetch facilitator) as [f | e]; [| reflexivity].
  cbn [cbind].
  destruct (resolveFacilitatorHeaders facilitator) as [headers | e]; [| reflexivity].
  cbn [cbind].
  destruct (f (url facilitator ++ "/verify")%string (verify_request headers dp sel))
    as [response | e]; [| reflexivity].
  cbn [cbind]. destruct (ok response); cbn [negb]; [| reflexivity].
  destruct (json response) as [vr | e]; [| reflexivity].
  destruct (get_prop vr "isValid") as [isValid | e] eqn:Hv; [| reflexivity].
  destruct (truthy isValid); cbn [negb]; [reflexivity |].
  rewrite respond402_with_run.
  rewrite (get_prop_total vr "isValid" isValid "invalidReason" Hv).
  rewrite (get_prop_total vr "isValid" isValid "payer" Hv).
  rewrite <- app_assoc. reflexivity.
Qed.

Lemma after_selection_outcome :
  forall decodedPayment selected paymentRequirements,
    after_selection globalFetch facilitator decodedPayment selected paymentRequirements [] =
    match exchange globalFetch facilitator decodedPayment selected with
    | Throw error => caught error paymentRequirements
    | Normal verificationResult =>
        match get_prop verificationResult "isValid" with
        | Throw error => caught error paymentRequirements
        | Normal isValid =>
            if truthy isValid then ([CallNext], Normal tt)
            else ([ ResStatus 402;
                    ResJson (VObj (rejection_body verificationResult paymentRequirements)) ],
                  Normal tt)
        end
    end.
Proof.
  intros dp sel reqs. unfold after_selection, mbind at 1, try_catch.
  rewrite verify_block_outcome.
  assert (Hcaught : forall error,
             match
               (respond402_with
                  (message <- lift (get_prop error "message") ;
                   mret (challenge (or_else message (VStr "Payment verification failed"))
                           reqs)) ;;;
                mret true) []
             with
             | (log', Normal returned) => (if returned then mret tt else next) log'
             | (log', Throw e) => (log', Throw e)
             end = caught error reqs).
  { intros error. unfold caught, mbind at 1. rewrite respond402_with_run.
    unfold mbind, lift, mret.
    destruct (get_prop error "message") as [m | e]; reflexivity. }
  destruct (exchange globalFetch facilitator dp sel) as [vr | e]; [| apply Hcaught].
  destruct (get_prop vr "isValid") as [isValid | e]; [| apply Hcaught].
  destruct (truthy isValid); reflexivity.
Qed.

(** The handler on a request with a matched route, built requirements, a
    decoded header and a selected requirement. *)
Lemma handler_selected :
  forall route paymentRequirements paymentHeader decodedPayment selected,
    findMatchingRoute routePatterns (path req) (method req) = Normal (Some route) ->
    buildPaymentRequirements payTo (config route) req = Normal paymentRequirements ->
    x_payment req = Some paymentHeader ->
    paymentHeader <> EmptyString ->
    decodePaymentHeader paymentHeader x402Version = Normal decodedPayment ->
    find (selects decodedPayment) paymentRequirements = Some selected ->
    run (paymentMiddlewareHandler globalFetch payTo routePatterns facilitator req) =
    after_selection globalFetch facilitator decodedPayment selected paymentRequirements [].
Proof.
  intros route reqs hdr dp sel Hfind Hreqs Hhdr Hne Hdec Hsel.
  unfold run, paymentMiddlewareHandler, mbind at 1, lift at 1. rewrite Hfind.
  unfold mbind at 1, lift at 1. rewrite Hreqs. rewrite Hhdr.
  destruct hdr as [| c hdr]; [congruence |].
  rewrite Hdec, Hsel. reflexivity.
Qed.

End Handler.

(** The handler on a request that reaches neither the decoder nor the
    facilitator. *)
Lemma handler_unmatched :
  forall globalFetch payTo routePatterns facilitator req,
    unmatched routePatterns req ->
    run (paymentMiddlewareHandler globalFetch payTo routePatterns facilitator req) =
    ([CallNext], Normal tt).
Proof.
  intros gf payTo ps fac req H. unfold unmatched in H.
  unfold run, paymentMiddlewareHandler, mbind at 1, lift at 1. rewrite H. reflexivity.
Qed.

Lemma handler_invalid_amount :
  forall globalFetch payTo routePatterns facilitator req route e,
    findMatchingRoute routePatterns (path req) (method req) = Normal (Some route) ->
    buildPaymentRequirements payTo (config route) req = Throw e ->
    run (paymentMiddlewareHandler globalFetch payTo routePatterns facilitator req) =
    ([], Throw e).
Proof.
  intros gf payTo ps fac req route e Hfind Hreqs.
  unfold run, paymentMiddlewareHandler, mbind at 1, lift at 1. rewrite Hfind.
  unfold mbind at 1, lift at 1. rewrite Hreqs. reflexivity.
Qed.

Lemma handler_no_header :
  forall globalFetch payTo routePatterns facilitator req route paymentRequirements,
    findMatchingRoute routePatterns (path req) (method req) = Normal (Some route) ->
    buildPaymentRequirements payTo (config route) req = Normal paymentRequirements ->
    x_payment req = None \/ x_payment req = Some EmptyString ->
    run (paymentMiddlewareHandler globalFetch payTo routePatterns facilitator req) =
    (challenge_written "X-PAYMENT header is required" paymentRequirements, Normal tt).
Proof.
  intros gf payTo ps fac req route reqs Hfind Hreqs Hhdr.
  unfold run, paymentMiddlewareHandler, mbind at 1, lift at 1. rewrite Hfind.
  unfold mbind at 1, lift at 1. rewrite Hreqs.
  destruct Hhdr as [-> | ->]; rewrite respond402_run; reflexivity.
Qed.

Lemma handler_undecodable :
  forall globalFetch payTo routePatterns facilitator req route paymentRequirements
         paymentHeader error,
    findMatchingRoute routePatterns (path req) (method req) = Normal (Some route) ->
    buildPaymentRequirements payTo (config route) req = Normal paymentRequirements ->
    x_payment req = Some paymentHeader ->
    paymentHeader <> EmptyString ->
    decodePaymentHeader paymentHeader x402Version = Throw error ->
    exists message,
      get_prop error "message" = Normal message /\
      run (paymentMiddlewareHandler globalFetch payTo routePatterns facilitator req) =
      ([ ResStatus 402;
         ResJson (VObj (challenge
                          (or_else message (VStr "Invalid or malformed payment header"))
                          paymentRequirements)) ],
       Normal tt).
Proof.
  intros gf payTo ps fac req route reqs hdr error Hfind Hreqs Hhdr Hne Hdec.
  destruct (get_prop_defined error "message"
              (decodePaymentHeader_throws_error hdr x402Version error Hdec)) as [m Hm].
  exists m. split; [exact Hm |].
  unfold run, paymentMiddlewareHandler, mbind at 1, lift at 1. rewrite Hfind.
  unfold mbind at 1, lift at 1. rewrite Hreqs, Hhdr.
  destruct hdr as [| c hdr]; [congruence |].
  rewrite Hdec. rewrite respond402_with_run. unfold mbind, lift, mret.
  rewrite Hm. reflexivity.
Qed.

Lemma handler_unselected :
  forall globalFetch payTo routePatterns facilitator req route paymentRequirements
         paymentHeader decodedPayment,
    findMatchingRoute routePatterns (path req) (method req) = Normal (Some route) ->
    buildPaymentRequirements payTo (config route) req = Normal paymentRequirements ->
    x_payment req = Some paymentHeader ->
    paymentHeader <> EmptyString ->
    decodePaymentHeader paymentHeader x402Version = Normal decodedPayment ->
    find (selects decodedPayment) paymentRequirements = None ->
    run (paymentMiddlewareHandler globalFetch payTo routePatterns facilitator req) =
    (challenge_written "Unable to find matching payment requirements" paymentRequirements,
     Normal tt).
Proof.
  intros gf payTo ps fac req route reqs hdr dp Hfind Hreqs Hhdr Hne Hdec Hsel.
  unfold run, paymentMiddlewareHandler, mbind at 1, lift at 1. rewrite Hfind.
  unfold mbind at 1, lift at 1. rewrite Hreqs, Hhdr.
  destruct hdr as [| c hdr]; [congruence |].
  rewrite Hdec, Hsel. rewrite respond402_run. reflexivity.
Qed.

(** Closing a case in which a 402 was written: the log is one write, it is
    not a call of [next], and the request is neither unmatched nor
    admitted. *)
Ltac written_402 Hrun :=
  eexists; split; [exact Hrun |];
  split; [right; eexists; reflexivity |];
  split;
  [ intros Habs; discriminate Habs
  | intros [Hu | (r' & q' & h' & d' & s' & v' & i' & A1 & A2 & A3 & A4 & A5 & A6 & A7 & A8 & A9)];
    [ unfold unmatched in Hu; congruence | congruence ] ].

(** C1 (amended).  For every request whose matched route, if any, has a
    config that the requirements builder accepts, and with a facilitator
    exchange that does not fail with [null] or [undefined], the handler
    ends normally having done exactly one of two things: it called [next]
    once and wrote nothing, or it wrote one 402 response through
    [res.status(402).json(...)] and did not call [next].  It called [next]
    exactly in the unmatched and the admitted case. *)
Theorem C1_exactly_one_outcome :
  forall globalFetch payTo routePatterns facilitator req,
    (forall route,
        findMatchingRoute routePatterns (path req) (method req) = Normal (Some route) ->
        exists paymentRequirements,
          buildPaymentRequirements payTo (config route) req = Normal paymentRequirements) ->
    (forall decodedPayment selected e,
        exchange globalFetch facilitator decodedPayment selected = Throw e ->
        nullish e = false) ->
    exists log,
      run (paymentMiddlewareHandler globalFetch payTo routePatterns facilitator req) =
        (log, Normal tt) /\
      (log = [CallNext] \/ exists body, log = [ResStatus 402; ResJson body]) /\
      (log = [CallNext] <->
       unmatched routePatterns req \/
       admitted globalFetch payTo routePatterns facilitator req).
Proof.
  intros gf payTo ps fac req Hbuild Hsound.
  destruct (findMatchingRoute_never_throws ps (path req) (method req))
    as [[route |] Hfind].
  2: { exists [CallNext]. split; [apply handler_unmatched; exact Hfind |].
       split; [left; reflexivity |]. split; [intros _; left; exact Hfind | reflexivity]. }
  destruct (Hbuild route Hfind) as [reqs Hreqs].
  destruct (x_payment req) as [hdr |] eqn:Hhdr.
  2: { pose proof (handler_no_header gf payTo ps fac req route reqs Hfind Hreqs
                     (or_introl Hhdr)) as Hrun.
       written_402 Hrun. }
  destruct (string_dec hdr EmptyString) as [Hempty | Hne].
  { subst hdr.
    pose proof (handler_no_header gf payTo ps fac req route reqs Hfind Hreqs
                  (or_intror Hhdr)) as Hrun.
    written_402 Hrun. }
  destruct (decodePaymentHeader hdr x402Version) as [dp | error] eqn:Hdec.
  2: { destruct (handler_undecodable gf payTo ps fac req route reqs hdr error
                   Hfind Hreqs Hhdr Hne Hdec) as (m & _ & Hrun).
       written_402 Hrun. }
  destruct (find (selects dp) reqs) as [sel |] eqn:Hsel.
  2: { pose proof (handler_unselected gf payTo ps fac req route reqs hdr dp
                     Hfind Hreqs Hhdr Hne Hdec Hsel) as Hrun.
       written_402 Hrun. }
  pose proof (handler_selected gf payTo ps fac req route reqs hdr dp sel
                Hfind Hreqs Hhdr Hne Hdec Hsel) as Hrun.
  rewrite after_selection_outcome in Hrun.
  destruct (exchange gf fac dp sel) as [vr | error] eqn:Hex.
  - destruct (get_prop vr "isValid") as [isValid | error] eqn:Hvalid.
    + destruct (truthy isValid) eqn:Htruthy.
      * exists [CallNext]. split; [exact Hrun |]. split; [left; reflexivity |].
        split; [intros _ | reflexivity].
        right. exists route, reqs, hdr, dp, sel, vr, isValid. repeat split; assumption.
      * written_402 Hrun.
    + assert (Hm : exists m, get_prop error "message" = Normal m).
      { destruct vr; simpl in Hvalid; try discriminate;
          injection Hvalid as <-; eexists; reflexivity. }
      destruct Hm as [m Hm]. unfold caught in Hrun. rewrite Hm in Hrun.
      written_402 Hrun.
  - destruct (get_prop_defined error "message" (Hsound dp sel error Hex)) as [m Hm].
    unfold caught in Hrun. rewrite Hm in Hrun.
    written_402 Hrun.
Qed.

Lemma C1_witness :
  exists log,
    run (paymentMiddlewareHandler Falsy payToAddress (compiled baseRoutes)
           (facilitator_with (Function (responding approval)))
           (get_request "/protected" (Some validPaymentPayload))) = (log, Normal tt) /\
    (log = [CallNext] \/ exists body, log = [ResStatus 402; ResJson body]) /\
    (log = [CallNext] <->
     unmatched (compiled baseRoutes) (get_request "/protected" (Some validPaymentPayload)) \/
     admitted Falsy payToAddress (compiled baseRoutes)
       (facilitator_with (Function (responding approval)))
       (get_request "/protected" (Some validPaymentPayload))).
Proof.
  apply (C1_exactly_one_outcome Falsy payToAddress (compiled baseRoutes)
           (facilitator_with (Function (responding approval)))
           (get_request "/protected" (Some validPaymentPayload))).
  - intros route H. vm_compute in H. injection H as <-. eexists. vm_compute. reflexivity.
  - intros decodedPayment selected e H. vm_compute in H. discriminate H.
Defined.

(** C1, as stated, fails: a route configured with the amount -5 compiles,
    and a request for it makes the handler throw before anything is
    written and without a call of [next]. *)
Lemma C1_counterexample :
  serve Falsy negativeRoutes (facilitator_with Falsy) (get_request "/x" None) =
  Some ([], Throw invalid_amount).
Proof. vm_compute. reflexivity. Qed.

(** C2 (amended).  A missing transport is found at first use, inside the
    second [try] block of the handler, whose [catch] clause turns it into
    a 402 response carrying the error's message; [next] is not called and
    the handler ends normally.  Constructing the middleware does not look
    at the transport: it succeeds whenever the routes compile. *)
Theorem C2_missing_transport_is_answered_with_402 :
  forall globalFetch payTo routePatterns facilitator req route paymentRequirements
         paymentHeader decodedPayment selected,
    findMatchingRoute routePatterns (path req) (method req) = Normal (Some route) ->
    buildPaymentRequirements payTo (config route) req = Normal paymentRequirements ->
    x_payment req = Some paymentHeader ->
    paymentHeader <> EmptyString ->
    decodePaymentHeader paymentHeader x402Version = Normal decodedPayment ->
    find (selects decodedPayment) paymentRequirements = Some selected ->
    resolveFetch globalFetch facilitator = Throw transport_unavailable ->
    run (paymentMiddlewareHandler globalFetch payTo routePatterns facilitator req) =
      (challenge_written "fetch implementation is required for facilitator verification"
         paymentRequirements,
       Normal tt) /\
    (forall RegExp_new routes,
        payTo <> EmptyString ->
        computeRoutePatterns RegExp_new routes = Normal routePatterns ->
        paymentMiddleware globalFetch RegExp_new payTo routes facilitator =
        Normal (paymentMiddlewareHandler globalFetch payTo routePatterns facilitator)).
Proof.
  intros gf payTo ps fac req route reqs hdr dp sel Hfind Hreqs Hhdr Hne Hdec Hsel Hfetch.
  split.
  - rewrite (handler_selected gf payTo ps fac req route reqs hdr dp sel
               Hfind Hreqs Hhdr Hne Hdec Hsel).
    rewrite after_selection_outcome. unfold exchange. rewrite Hfetch. reflexivity.
  - intros RegExp_new routes HpayTo Hcompile. unfold paymentMiddleware.
    destruct payTo; [congruence |]. rewrite Hcompile. reflexivity.
Qed.

Lemma C2_witness :
  run (paymentMiddlewareHandler Falsy payToAddress (compiled baseRoutes)
         (facilitator_with Falsy)
         (get_request "/protected" (Some validPaymentPayload))) =
    (challenge_written "fetch implementation is required for facilitator verification"
       [protectedRequirement],
     Normal tt) /\
  (forall RegExp_new routes,
      payToAddress <> EmptyString ->
      computeRoutePatterns RegExp_new routes = Normal (compiled baseRoutes) ->
      paymentMiddleware Falsy RegExp_new payToAddress routes (facilitator_with Falsy) =
      Normal (paymentMiddlewareHandler Falsy payToAddress (compiled baseRoutes)
                (facilitator_with Falsy))).
Proof.
  eapply (C2_missing_transport_is_answered_with_402 Falsy payToAddress
            (compiled baseRoutes) (facilitator_with Falsy)
            (get_request "/protected" (Some validPaymentPayload))).
  - vm_compute. reflexivity.
  - vm_compute. reflexivity.
  - reflexivity.
  - vm_compute. discriminate.
  - vm_compute. reflexivity.
  - vm_compute. reflexivity.
  - reflexivity.
Defined.

(** C2, as stated, fails: with no transport given and none in the process,
    the middleware is constructed, and a request carrying a valid payment
    header is answered with a 402 response; nothing is thrown to the
    caller. *)
Lemma C2_counterexample :
  serve Falsy baseRoutes (facilitator_with Falsy)
    (get_request "/protected" (Some validPaymentPayload)) =
  Some (challenge_written "fetch implementation is required for facilitator verification"
          [protectedRequirement],
        Normal tt).
Proof. vm_compute. reflexivity. Qed.

(** C8 (amended).  When the verify call resolves with a success status
    and a body whose [isValid] is falsy, the handler does not take the
    [catch] clause: it writes one 402 response, does not call [next], and
    ends normally.  The [error] of the response is the body's
    [invalidReason] when that is truthy and 'Payment verification failed'
    otherwise; its [payer] is the body's [payer] when that is truthy and
    the empty string otherwise. *)
Theorem C8_invalid_payment_is_answered_with_402 :
  forall globalFetch payTo routePatterns facilitator req route paymentRequirements
         paymentHeader decodedPayment selected fetchImpl headers response
         verificationResult isValid,
    findMatchingRoute routePatterns (path req) (method req) = Normal (Some route) ->
    buildPaymentRequirements payTo (config route) req = Normal paymentRequirements ->
    x_payment req = Some paymentHeader ->
    paymentHeader <> EmptyString ->
    decodePaymentHeader paymentHeader x402Version = Normal decodedPayment ->
    find (selects decodedPayment) paymentRequirements = Some selected ->
    resolveFetch globalFetch facilitator = Normal fetchImpl ->
    resolveFacilitatorHeaders facilitator = Normal headers ->
    fetchImpl (url facilitator ++ "/verify")%string
      (verify_request headers decodedPayment selected) = Normal response ->
    ok response = true ->
    json response = Normal verificationResult ->
    get_prop verificationResult "isValid" = Normal isValid ->
    truthy isValid = false ->
    exists invalidReason payer,
      get_prop verificationResult "invalidReason" = Normal invalidReason /\
      get_prop verificationResult "payer" = Normal payer /\
      run (paymentMiddlewareHandler globalFetch payTo routePatterns facilitator req) =
      ([ ResStatus 402;
         ResJson (VObj [ ("x402Version", VNum (Fin 1));
                         ("error", if truthy invalidReason then invalidReason
                                   else VStr "Payment verification failed");
                         ("accepts", VArr paymentRequirements);
                         ("payer", if truthy payer then payer else VStr "") ]) ],
       Normal tt).
Proof.
  intros gf payTo ps fac req route reqs hdr dp sel f headers response vr isValid
         Hfind Hreqs Hhdr Hne Hdec Hsel Hfetch Hheaders Hcall Hok Hjson Hvalid Hfalsy.
  exists (get_prop_opt vr "invalidReason"), (get_prop_opt vr "payer").
  split; [exact (get_prop_total vr "isValid" isValid "invalidReason" Hvalid) |].
  split; [exact (get_prop_total vr "isValid" isValid "payer" Hvalid) |].
  rewrite (handler_selected gf payTo ps fac req route reqs hdr dp sel
             Hfind Hreqs Hhdr Hne Hdec Hsel).
  rewrite after_selection_outcome. unfold exchange.
  rewrite Hfetch. cbn [cbind]. rewrite Hheaders. cbn [cbind]. rewrite Hcall.
  cbn [cbind]. rewrite Hok. cbn [negb]. rewrite Hjson, Hvalid, Hfalsy.
  reflexivity.
Qed.

Lemma C8_witness :
  exists invalidReason payer,
    get_prop rejection "invalidReason" = Normal invalidReason /\
    get_prop rejection "payer" = Normal payer /\
    run (paymentMiddlewareHandler Falsy payToAddress (compiled baseRoutes)
           (facilitator_with (Function (responding rejection)))
           (get_request "/protected" (Some validPaymentPayload))) =
    ([ ResStatus 402;
       ResJson (VObj [ ("x402Version", VNum (Fin 1));
                       ("error", if truthy invalidReason then invalidReason
                                 else VStr "Payment verification failed");
                       ("accepts", VArr [protectedRequirement]);
                       ("payer", if truthy payer then payer else VStr "") ]) ],
     Normal tt).
Proof.
  eapply (C8_invalid_payment_is_answered_with_402 Falsy payToAddress
            (compiled baseRoutes) (facilitator_with (Function (responding rejection)))
            (get_request "/protected" (Some validPaymentPayload))).
  - vm_compute. reflexivity.
  - vm_compute. reflexivity.
  - reflexivity.
  - vm_compute. discriminate.
  - vm_compute. reflexivity.
  - vm_compute. reflexivity.
  - reflexivity.
  - vm_compute. reflexivity.
  - reflexivity.
  - reflexivity.
  - reflexivity.
  - reflexivity.
  - reflexivity.
Defined.

(** C8, as stated, fails: a verification result that says no more than
    that the payment is invalid is answered with the fixed message and the
    empty payer, which are not fields of the result. *)
Lemma C8_counterexample :
  serve Falsy baseRoutes
    (facilitator_with (Function (responding (VObj [("isValid", VBool false)]))))
    (get_request "/protected" (Some validPaymentPayload)) =
  Some ([ ResStatus 402;
          ResJson (VObj [ ("x402Version", VNum (Fin 1));
                          ("error", VStr "Payment verification failed");
                          ("accepts", VArr [protectedRequirement]);
                          ("payer", VStr "") ]) ],
        Normal tt).
Proof. vm_compute. reflexivity. Qed.

(** The example of the specification: a result with a reason and a payer
    is answered with both. *)
Example rejection_as_provided :
  serve Falsy baseRoutes (facilitator_with (Function (responding rejection)))
    (get_request "/protected" (Some validPaymentPayload)) =
  Some ([ ResStatus 402;
          ResJson (VObj [ ("x402Version", VNum (Fin 1));
                          ("error", VStr "insufficient amount");
                          ("accepts", VArr [protectedRequirement]);
                          ("payer", VStr "payer-id") ]) ],
        Normal tt).
Proof. vm_compute. reflexivity. Qed.

(** Without a reason or a payer in the body, the rejection carries the
    fixed message and the empty payer. *)
Example rejection_defaults :
  rejection_body (VObj [("isValid", VBool false)]) [protectedRequirement] =
  [ ("x402Version", VNum (Fin 1));
    ("error", VStr "Payment verification failed");
    ("accepts", VArr [protectedRequirement]);
    ("payer", VStr "") ].
Proof. reflexivity. Qed.

(** The exchange fails with an [Error] object, or with what the
    facilitator's own hook, transport or body reader rejected with. *)
Lemma exchange_failure_not_nullish :
  forall globalFetch facilitator decodedPayment selected,
    (forall call e,
        createAuthHeaders facilitator = Function call -> call = Throw e ->
        nullish e = false) ->
    (forall fetchImpl target init e,
        resolveFetch globalFetch facilitator = Normal fetchImpl ->
        fetchImpl target init = Throw e -> nullish e = false) ->
    (forall fetchImpl target init response e,
        resolveFetch globalFetch facilitator = Normal fetchImpl ->
        fetchImpl target init = Normal response ->
        json response = Throw e -> nullish e = false) ->
    forall e,
      exchange globalFetch facilitator decodedPayment selected = Throw e ->
      nullish e = false.
Proof.
  intros gf fac dp sel Hhook Hcall Hbody e. unfold exchange.
  destruct (resolveFetch gf fac) as [f | e0] eqn:Hf; cbn [cbind].
  2: { intros H. injection H as <-. unfold resolveFetch in Hf.
       destruct (fetch fac); [destruct gf | |]; try discriminate;
         injection Hf as <-; reflexivity. }
  destruct (resolveFacilitatorHeaders fac) as [headers | e0] eqn:Hh; cbn [cbind].
  2: { intros H. injection H as <-. unfold resolveFacilitatorHeaders in Hh.
       destruct (createAuthHeaders fac) as [| | call] eqn:Hc; try discriminate.
       destruct call as [generated | e1] eqn:Hcall'; cbn [cbind] in Hh.
       - destruct (truthy (get_prop_opt generated "verify")); discriminate.
       - injection Hh as <-. exact (Hhook (Throw e1) e1 eq_refl eq_refl). }
  destruct (f (url fac ++ "/verify")%string (verify_request headers dp sel))
    as [response | e0] eqn:Hr; cbn [cbind].
  2: { intros H. injection H as <-. exact (Hcall f _ _ e0 eq_refl Hr). }
  destruct (ok response); cbn [negb].
  - intros H. exact (Hbody f _ _ response e eq_refl Hr H).
  - intros H. injection H as <-. reflexivity.
Qed.

(** A transport that rejects with [null] leaves the [catch] clause of the
    handler with nothing to read a message from: the clause has set the
    status when the read throws, and the handler throws, having neither
    written a body nor called [next]. *)
Example rejection_with_null_escapes_the_catch_clause :
  serve Falsy baseRoutes (facilitator_with (Function (fun _ _ => Throw VNull)))
    (get_request "/protected" (Some validPaymentPayload)) =
  Some ([ResStatus 402],
        Throw (TypeError "Cannot read properties of null (reading 'message')")).
Proof. vm_compute. reflexivity. Qed.

(** The unit tests of the handler, evaluated. *)
Example handler_calls_next_when_unmatched :
  serve Falsy baseRoutes (facilitator_with Falsy) (get_request "/unmatched" None) =
  Some ([CallNext], Normal tt).
Proof. vm_compute. reflexivity. Qed.

Example handler_challenges_without_header :
  serve Falsy baseRoutes (facilitator_with Falsy) (get_request "/protected" None) =
  Some (challenge_written "X-PAYMENT header is required" [protectedRequirement], Normal tt).
Proof. vm_compute. reflexivity. Qed.

Example handler_admits_valid_payment :
  serve Falsy baseRoutes (facilitator_with (Function (responding approval)))
    (get_request "/protected" (Some validPaymentPayload)) =
  Some ([CallNext], Normal tt).
Proof. vm_compute. reflexivity. Qed.

(* ================================================================== *)
(** * Further properties: compiling the route map *)

Lemma obj_lookup_app :
  forall (a b : obj) k,
    obj_lookup (a ++ b) k =
    match obj_lookup a k with Some v => Some v | None => obj_lookup b k end.
Proof.
  induction a as [| [k' v'] a IH]; intros b k; simpl; [reflexivity |].
  destruct (String.eqb k k'); [reflexivity | apply IH].
Qed.

(** Copying properties one by one: a key reads as its last copy, or as
    it did in the target. *)
Lemma fold_obj_set_get :
  forall (l : obj) (target : obj) k,
    obj_get (fold_left (fun o kv => obj_set o (fst kv) (snd kv)) l target) k =
    match last_lookup l k with
    | Some v => v
    | None => obj_get target k
    end.
Proof.
  unfold last_lookup.
  induction l as [| [k' v'] l IH]; intros target k; simpl; [reflexivity |].
  rewrite IH. rewrite obj_lookup_app.
  destruct (obj_lookup (rev l) k); [reflexivity |]. simpl.
  destruct (String.eqb k k') eqn:E.
  - apply String.eqb_eq in E. subst k'. apply obj_get_set_same.
  - apply obj_get_set_other. intros ->. rewrite String.eqb_refl in E. discriminate.
Qed.

Lemma spread_get :
  forall target source k,
    obj_get (spread target source) k =
    match last_lookup (own_props source) k with
    | Some v => v
    | None => obj_get target k
    end.
Proof. intros. unfold spread. apply fold_obj_set_get. Qed.







(** X1.  Whatever the engine, an entry of the route map whose key is
    ASCII text fails with the error [Invalid route pattern: <key>] if and
    only if its key contains a space character and consists of white space
    only; every other such key reaches the [RegExp] constructor with the
    translation of its path, and yields one pattern when the constructor
    accepts it. *)
Theorem X1_invalid_route_pattern_characterised :
  forall RegExp_new key v,
    ascii_only key = true ->
    compileEntry RegExp_new (key, v) =
    if includes_space key && forallb_string is_space key
    then Throw (invalid_route_pattern key)
    else match RegExp_new (regexPattern_of (key_path key)) with
         | Normal re =>
             Normal {| verb := key_verb key; pattern := re; config := own_props v |}
         | Throw e => Throw e
         end.
Proof.
  intros RegExp_new key v _.
  destruct (compileEntry_outcome RegExp_new key v) as [[Hp ->] | [Hp ->]].
  - apply key_path_empty_iff in Hp. destruct Hp as [-> ->]. reflexivity.
  - destruct (includes_space key && forallb_string is_space key) eqn:E; [| reflexivity].
    exfalso. apply Hp. apply key_path_empty_iff. apply andb_prop in E. exact E.
Qed.

Lemma X1_witness :
  compileEntry Engine.newRegExp ("get /open", price 1500) =
  if includes_space "get /open" && forallb_string is_space "get /open"
  then Throw (invalid_route_pattern "get /open")
  else match Engine.newRegExp (regexPattern_of (key_path "get /open")) with
       | Normal re =>
           Normal {| verb := key_verb "get /open"; pattern := re;
                     config := own_props (price 1500) |}
       | Throw e => Throw e
       end.
Proof.
  apply (X1_invalid_route_pattern_characterised Engine.newRegExp "get /open" (price 1500)).
  reflexivity.
Defined.

(** A key of blanks is rejected; a key with a verb and a path is not. *)
Example blank_key_is_invalid :
  compileEntry Engine.newRegExp ("  ", price 1500) = Throw (invalid_route_pattern "  ").
Proof. reflexivity. Qed.



(** X3.  The config of a compiled route: a bare string or number price
    becomes [{ price, network }] with the map's default network; any other
    value keeps its own properties (a repeated property reads as its last
    value) and gets the default network only when it has no [network] of
    its own; the default is the map's [network] entry when that is truthy,
    and ["bch"] otherwise. *)
Theorem X3_route_config_network :
  forall routes v,
    match v with
    | VStr _ | VNum _ =>
        normalizeValue routes v = [("price", v); ("network", global_network routes)]
    | _ =>
        forall k,
          obj_get (normalizeValue routes v) k =
          match last_lookup (own_props v) k with
          | Some x => x
          | None => if String.eqb k "network" then global_network routes else VUndefined
          end
    end /\
    (truthy (obj_get routes "network") = false ->
     global_network routes = VStr "bch") /\
    (truthy (obj_get routes "network") = true ->
     global_network routes = obj_get routes "network").
Proof.
  intros routes v. split; [| split].
  - destruct v; try reflexivity;
      (intros k; unfold normalizeValue; rewrite spread_get;
       match goal with |- context [last_lookup ?o k] => destruct (last_lookup o k) end;
       [reflexivity |];
       unfold obj_get; simpl; destruct (String.eqb k "network"); reflexivity).
  - intros H. unfold global_network, or_else. rewrite H. reflexivity.
  - intros H. unfold global_network, or_else. rewrite H. reflexivity.
Qed.

(* ================================================================== *)
(** * Further properties: matching a request *)

Lemma before_query_idempotent :
  forall p, before_query (before_query p) = before_query p.
Proof.
  induction p as [| c p IH]; simpl; [reflexivity |].
  destruct (Ascii.eqb c "?" || Ascii.eqb c "#") eqn:E; simpl; [reflexivity |].
  rewrite E, IH. reflexivity.
Qed.

Lemma before_query_cut :
  forall p c q,
    Ascii.eqb c "?" || Ascii.eqb c "#" = true ->
    before_query (before_query p ++ String c q) = before_query p.
Proof.
  intros p c q Hc. induction p as [| d p IH]; simpl.
  - rewrite Hc. reflexivity.
  - destruct (Ascii.eqb d "?" || Ascii.eqb d "#") eqn:E; simpl.
    + rewrite Hc. reflexivity.
    + rewrite E, IH. reflexivity.
Qed.

Lemma findMatchingRoute_before_query :
  forall routePatterns p p' method,
    before_query p = before_query p' ->
    findMatchingRoute routePatterns p method = findMatchingRoute routePatterns p' method.
Proof.
  intros ps p p' m H. unfold findMatchingRoute, normalizePath. rewrite H. reflexivity.
Qed.

(** X5.  Matching reads the path up to its first [?] or [#] only: two
    paths that agree up to there are matched alike, so a query string or a
    fragment added to a path never changes the route that is found. *)
Theorem X5_query_and_fragment_are_ignored :
  forall routePatterns p p' method,
    before_query p = before_query p' ->
    findMatchingRoute routePatterns p method = findMatchingRoute routePatterns p' method /\
    (forall q,
        findMatchingRoute routePatterns (before_query p ++ String "?" q) method =
        findMatchingRoute routePatterns p' method) /\
    (forall q,
        findMatchingRoute routePatterns (before_query p ++ String "#" q) method =
        findMatchingRoute routePatterns p' method).
Proof.
  intros ps p p' m H. split; [| split].
  - apply findMatchingRoute_before_query. exact H.
  - intros q. apply findMatchingRoute_before_query.
    rewrite before_query_cut; [exact H | reflexivity].
  - intros q. apply findMatchingRoute_before_query.
    rewrite before_query_cut; [exact H | reflexivity].
Qed.

Lemma X5_witness :
  findMatchingRoute (compiled baseRoutes) "/protected?paid=1#top" "GET" =
  findMatchingRoute (compiled baseRoutes) "/protected" "GET".
Proof.
  apply (proj1 (X5_query_and_fragment_are_ignored (compiled baseRoutes)
                  "/protected?paid=1#top" "/protected" "GET" eq_refl)).
Defined.

Lemma upper_char_idempotent :
  forall c, upper_char (upper_char c) = upper_char c.
Proof. intros [[] [] [] [] [] [] [] []]; reflexivity. Qed.

Lemma toUpperCase_idempotent :
  forall s, toUpperCase (toUpperCase s) = toUpperCase s.
Proof.
  unfold toUpperCase. induction s as [| c s IH]; simpl; [reflexivity |].
  rewrite upper_char_idempotent, IH. reflexivity.
Qed.

(** X6.  The method is compared after upper-casing: two methods with the
    same upper-case form find the same route, and a method finds what its
    upper-case form finds. *)
Theorem X6_method_case_is_ignored :
  forall routePatterns p method method',
    toUpperCase method = toUpperCase method' ->
    findMatchingRoute routePatterns p method = findMatchingRoute routePatterns p method' /\
    findMatchingRoute routePatterns p method =
    findMatchingRoute routePatterns p (toUpperCase method).
Proof.
  assert (Hsame : forall ps p m m',
             toUpperCase m = toUpperCase m' ->
             findMatchingRoute ps p m = findMatchingRoute ps p m').
  { intros ps p m m' H. unfold findMatchingRoute.
    destruct (normalizePath p) as [np | e]; [| reflexivity].
    assert (Hc : candidates_of ps np m = candidates_of ps np m').
    { unfold candidates_of. apply filter_ext. intros r. unfold is_candidate.
      rewrite H. reflexivity. }
    rewrite Hc. reflexivity. }
  intros ps p m m' H. split.
  - apply Hsame. exact H.
  - apply Hsame. symmetry. apply toUpperCase_idempotent.
Qed.

Lemma X6_witness :
  findMatchingRoute (compiled baseRoutes) "/protected" "get" =
  findMatchingRoute (compiled baseRoutes) "/protected" "GeT".
Proof.
  apply (proj1 (X6_method_case_is_ignored (compiled baseRoutes) "/protected" "get" "GeT"
                  eq_refl)).
Defined.

(** X7.  [findMatchingRoute] finds nothing exactly when the path fails to
    decode or no pattern is a candidate for the normalized path and the
    method; and what it finds is one of the given patterns, whose regular
    expression matches the normalized path and whose verb is the wildcard
    or the upper-cased method. *)
Theorem X7_match_is_a_candidate_of_the_list :
  forall routePatterns p method,
    (findMatchingRoute routePatterns p method = Normal None <->
     (exists e, normalizePath p = Throw e) \/
     (exists normalizedPath,
         normalizePath p = Normal normalizedPath /\
         Forall (fun r => is_candidate normalizedPath method r = false) routePatterns)) /\
    (forall r,
        findMatchingRoute routePatterns p method = Normal (Some r) ->
        In r routePatterns /\
        exists normalizedPath,
          normalizePath p = Normal normalizedPath /\
          test (pattern r) normalizedPath = true /\
          (verb r = "*" \/ verb r = toUpperCase method)).
Proof.
  intros ps p m.
  assert (Hnone : forall np,
             candidates_of ps np m = [] <->
             Forall (fun r => is_candidate np m r = false) ps).
  { intros np. unfold candidates_of. induction ps as [| r ps IH]; simpl.
    - split; constructor.
    - destruct (is_candidate np m r) eqn:E.
      + split; [discriminate |]. intros H. inversion H. congruence.
      + rewrite IH. split; intros H; [constructor; assumption | inversion H; assumption]. }
  unfold findMatchingRoute. destruct (normalizePath p) as [np | e]; split.
  - destruct (candidates_of ps np m) as [| a rest] eqn:Hc.
    + split; [| reflexivity]. intros _. right. exists np.
      split; [reflexivity | apply Hnone; exact Hc].
    + split; [discriminate |].
      intros [[e He] | (np' & Hnp & Hall)]; [discriminate |].
      injection Hnp as <-. apply Hnone in Hall. congruence.
  - intros r H. destruct (candidates_of ps np m) as [| a rest] eqn:Hc; [discriminate |].
    injection H as <-.
    destruct (reduce_longer_first_max a rest) as (l1 & l2 & Heq & _).
    assert (Hin : In (fold_left longer rest a) (candidates_of ps np m)).
    { rewrite Hc, Heq. apply in_or_app. right. left. reflexivity. }
    unfold candidates_of in Hin. apply filter_In in Hin. destruct Hin as [Hin Hcand].
    split; [exact Hin |]. exists np. split; [reflexivity |].
    unfold is_candidate in Hcand. apply andb_prop in Hcand. destruct Hcand as [Ht Hv].
    split; [exact Ht |]. apply orb_prop in Hv.
    destruct Hv as [Hv | Hv]; apply String.eqb_eq in Hv; [left | right]; congruence.
  - split; [| reflexivity]. intros _. left. exists e. reflexivity.
  - intros r H. discriminate.
Qed.

Lemma decode_uri_plain_step :
  forall fuel c r,
    Ascii.eqb c "%" = false ->
    decode_uri (S fuel) (String c r) = (t <-- decode_uri fuel r ;; Normal (String c t)).
Proof.
  intros fuel c r H.
  destruct c as [b0 b1 b2 b3 b4 b5 b6 b7].
  destruct b0; [| reflexivity].
  destruct b1; [reflexivity |].
  destruct b2; [| reflexivity].
  destruct b3; [reflexivity |].
  destruct b4; [reflexivity |].
  destruct b5; [| reflexivity].
  destruct b6; [reflexivity |].
  destruct b7; [reflexivity |].
  discriminate H.
Qed.

Lemma decode_uri_without_percent :
  forall s fuel,
    String.length s <= fuel -> has_percent s = false -> decode_uri fuel s = Normal s.
Proof.
  induction s as [| c s IH]; intros fuel Hfuel H.
  - destruct fuel; reflexivity.
  - destruct fuel as [| fuel]; [simpl in Hfuel; lia |].
    unfold has_percent in H. cbn [existsb_string] in H.
    apply orb_false_elim in H. destruct H as [Hc Hs].
    rewrite Ascii.eqb_sym in Hc.
    rewrite (decode_uri_plain_step fuel c s Hc).
    rewrite IH; [reflexivity | simpl in Hfuel; lia | exact Hs].
Qed.

(** Every failure of the decoder is the [URIError] of a malformed
    escape. *)
Lemma decode_uri_throws_malformed :
  forall fuel s e, decode_uri fuel s = Throw e -> e = uri_malformed.
Proof.
  induction fuel as [| fuel IH]; intros s e H; [discriminate H |].
  destruct s as [| c s]; [discriminate H |].
  destruct (Ascii.eqb c "%") eqn:E.
  - apply Ascii.eqb_eq in E. subst c. cbn [decode_uri] in H.
    repeat match type of H with
           | context [match ?x with _ => _ end] => destruct x eqn:?
           | context [if ?x then _ else _] => destruct x eqn:?
           | context [cbind ?x _] => destruct x eqn:?; cbn [cbind] in H
           end;
      cbn [cbind] in H; try discriminate H;
      try (injection H as <-; first [reflexivity | eapply IH; eassumption]).
  - rewrite (decode_uri_plain_step fuel c s E) in H.
    destruct (decode_uri fuel s) as [t | e'] eqn:Hd; [discriminate H |].
    cbn [cbind] in H. injection H as <-. exact (IH s e' Hd).
Qed.

(** X9.  [decodeURIComponent] leaves a string without a percent sign as
    it is, so the normalization of a path fails only on a path that has a
    percent sign before its query, and then with the [URIError] of a
    malformed escape. *)
Theorem X9_only_percent_escapes_can_fail :
  forall p,
    (has_percent p = false -> decodeURIComponent p = Normal p) /\
    (forall e, normalizePath p = Throw e ->
               has_percent (before_query p) = true /\ e = uri_malformed).
Proof.
  intros p. split.
  - intros H. unfold decodeURIComponent. apply decode_uri_without_percent; [lia | exact H].
  - intros e H. unfold normalizePath in H.
    destruct (decodeURIComponent (before_query p)) as [d | e'] eqn:Hd; [discriminate |].
    cbn [cbind] in H. injection H as <-. split.
    + destruct (has_percent (before_query p)) eqn:Hp; [reflexivity |].
      unfold decodeURIComponent in Hd.
      rewrite (decode_uri_without_percent (before_query p) _ (Nat.le_refl _) Hp) in Hd.
      discriminate.
    + exact (decode_uri_throws_malformed _ _ _ Hd).
Qed.

(* ------------------------------------------------------------------ *)
(** ** The normalized path *)

Lemma append_nil_r : forall s : string, (s ++ "")%string = s.
Proof. induction s as [| c s IH]; simpl; [reflexivity | rewrite IH; reflexivity]. Qed.

Lemma append_assoc :
  forall a b c : string, ((a ++ b) ++ c)%string = (a ++ (b ++ c))%string.
Proof. induction a as [| x a IH]; intros b c; simpl; [reflexivity | rewrite IH; reflexivity]. Qed.

Lemma rev_string_acc_spec :
  forall s acc, rev_string_acc s acc = (rev_string s ++ acc)%string.
Proof.
  unfold rev_string. induction s as [| c s IH]; intros acc; simpl; [reflexivity |].
  rewrite (IH (String c acc)), (IH (String c EmptyString)).
  rewrite append_assoc. reflexivity.
Qed.

Lemma rev_string_cons :
  forall c s, rev_string (String c s) = (rev_string s ++ String c EmptyString)%string.
Proof. intros c s. unfold rev_string at 1. simpl. apply rev_string_acc_spec. Qed.

Lemma rev_string_app :
  forall a b, rev_string (a ++ b) = (rev_string b ++ rev_string a)%string.
Proof.
  induction a as [| c a IH]; intros b; simpl.
  - rewrite append_nil_r. reflexivity.
  - rewrite !rev_string_cons, IH, append_assoc. reflexivity.
Qed.

Lemma rev_string_involutive : forall s, rev_string (rev_string s) = s.
Proof.
  induction s as [| c s IH]; [reflexivity |].
  rewrite rev_string_cons, rev_string_app, IH. reflexivity.
Qed.

Lemma existsb_string_app :
  forall p a b,
    existsb_string p (a ++ b) = existsb_string p a || existsb_string p b.
Proof.
  intros p. induction a as [| c a IH]; intros b; simpl; [reflexivity |].
  rewrite IH, orb_assoc. reflexivity.
Qed.

Lemma forallb_string_app :
  forall p a b,
    forallb_string p (a ++ b) = forallb_string p a && forallb_string p b.
Proof.
  intros p. induction a as [| c a IH]; intros b; simpl; [reflexivity |].
  rewrite IH, andb_assoc. reflexivity.
Qed.

(** [drop_while] removes a prefix of characters that satisfy the test and
    stops at the first that does not. *)
Lemma drop_while_split :
  forall p s,
    exists pre,
      s = (pre ++ drop_while p s)%string /\ forallb_string p pre = true.
Proof.
  intros p. induction s as [| c s (pre & Hs & Hp)]; simpl.
  - exists EmptyString. auto.
  - destruct (p c) eqn:E.
    + exists (String c pre). simpl. rewrite E, Hp. rewrite <- Hs. auto.
    + exists EmptyString. auto.
Qed.

Lemma drop_while_head :
  forall p s c r, drop_while p s = String c r -> p c = false.
Proof.
  intros p. induction s as [| d s IH]; intros c r H; simpl in H; [discriminate |].
  destruct (p d) eqn:E; [exact (IH c r H) |]. injection H as <- _. exact E.
Qed.

(** [drop_while_end] removes a suffix of characters that satisfy the
    test; what is left does not end in such a character. *)
Lemma drop_while_end_split :
  forall p s,
    exists suffix,
      s = (drop_while_end p s ++ suffix)%string /\ forallb_string p suffix = true.
Proof.
  intros p s. unfold drop_while_end.
  destruct (drop_while_split p (rev_string s)) as (pre & Hs & Hp).
  exists (rev_string pre). split.
  - rewrite <- rev_string_app, <- Hs, rev_string_involutive. reflexivity.
  - clear Hs. induction pre as [| c pre IH]; [reflexivity |].
    simpl in Hp. apply andb_prop in Hp. destruct Hp as [Hc Hp].
    rewrite rev_string_cons, forallb_string_app, (IH Hp). simpl. rewrite Hc. reflexivity.
Qed.

Lemma drop_while_end_last :
  forall p s a c,
    drop_while_end p s = (a ++ String c EmptyString)%string -> p c = false.
Proof.
  intros p s a c H. unfold drop_while_end in H.
  apply (f_equal rev_string) in H.
  rewrite rev_string_involutive, rev_string_app in H. simpl in H.
  exact (drop_while_head p (rev_string s) c (rev_string a) H).
Qed.

Lemma has_double_slash_prefix :
  forall a b, has_double_slash (a ++ b) = false -> has_double_slash a = false.
Proof.
  induction a as [| c a IH]; intros b H; [reflexivity |].
  simpl in H. apply orb_false_elim in H. destruct H as [H1 H2].
  simpl. rewrite (IH b H2), orb_false_r.
  destruct a as [| d a]; [apply andb_false_r | exact H1].
Qed.

Lemma has_double_slash_suffix :
  forall a b, has_double_slash (a ++ b) = false -> has_double_slash b = false.
Proof.
  induction a as [| c a IH]; intros b H; [exact H |].
  simpl in H. apply orb_false_elim in H. destruct H as [_ H]. exact (IH b H).
Qed.

(** Appending a slash to a string that does not end in one. *)
Lemma has_double_slash_snoc :
  forall s,
    has_double_slash s = false ->
    (forall a, s <> (a ++ "/")%string) ->
    has_double_slash (s ++ "/") = false.
Proof.
  induction s as [| c s IH]; intros H Hend; [reflexivity |].
  simpl in H. apply orb_false_elim in H. destruct H as [H1 H2].
  simpl. rewrite IH; [| exact H2 |].
  - rewrite orb_false_r. destruct s as [| d s]; simpl; [| exact H1].
    rewrite andb_true_r. destruct (is_slash c) eqn:E; [| reflexivity].
    exfalso. apply (Hend EmptyString). unfold is_slash in E.
    apply Ascii.eqb_eq in E. subst c. reflexivity.
  - intros a Ha. apply (Hend (String c a)). simpl. rewrite Ha. reflexivity.
Qed.

Lemma collapse_slashes_no_backslash :
  forall s, has_backslash s = false -> has_backslash (collapse_slashes s) = false.
Proof.
  unfold has_backslash. induction s as [| c s IH]; intros H; [reflexivity |].
  simpl in H. apply orb_false_elim in H. destruct H as [Hc Hs].
  simpl. destruct (Ascii.eqb c "/") eqn:E.
  - simpl. destruct (drop_while_split (Ascii.eqb "/") (collapse_slashes s)) as (pre & Hp & _).
    specialize (IH Hs). rewrite Hp, existsb_string_app in IH.
    apply orb_false_elim in IH. destruct IH as [_ IH]. rewrite IH. reflexivity.
  - simpl. rewrite Hc, (IH Hs). reflexivity.
Qed.

Lemma collapse_slashes_no_double_slash :
  forall s, has_double_slash (collapse_slashes s) = false.
Proof.
  induction s as [| c s IH]; [reflexivity |].
  simpl. destruct (Ascii.eqb c "/") eqn:E.
  - destruct (drop_while_split (Ascii.eqb "/") (collapse_slashes s)) as (pre & Hp & _).
    rewrite Hp in IH. apply has_double_slash_suffix in IH.
    simpl. rewrite IH, orb_false_r.
    destruct (drop_while (Ascii.eqb "/") (collapse_slashes s)) as [| d r] eqn:Hd;
      [reflexivity |].
    apply drop_while_head in Hd. unfold is_slash. rewrite Ascii.eqb_sym, Hd.
    reflexivity.
  - simpl. unfold is_slash at 1. rewrite E, IH. reflexivity.
Qed.

Lemma replace_backslashes_no_backslash :
  forall s, has_backslash (replace_chars (Ascii.eqb "\") (fun _ => "/") s) = false.
Proof.
  unfold has_backslash. induction s as [| c s IH]; [reflexivity |].
  cbn [replace_chars]. destruct (Ascii.eqb "\" c) eqn:E.
  - change (existsb_string (Ascii.eqb "\")
              (String "/" (replace_chars (Ascii.eqb "\") (fun _ => "/") s)) = false).
    cbn [existsb_string]. rewrite IH. reflexivity.
  - cbn [existsb_string]. rewrite E, IH. reflexivity.
Qed.

Lemma snoc_injective :
  forall a b c d,
    (a ++ String c EmptyString)%string = (b ++ String d EmptyString)%string ->
    a = b /\ c = d.
Proof.
  induction a as [| x a IH]; intros [| y b] c d H; simpl in H.
  - injection H as ->. auto.
  - injection H as -> H. destruct b; discriminate.
  - injection H as -> H. destruct a; discriminate.
  - injection H as -> H. destruct (IH b c d H) as [-> ->]. auto.
Qed.

(** X8.  A path that normalizes has no backslash left and no two slashes
    in a row; and it ends in a slash only when it is the root path [/] or
    when the slash follows a line terminator. *)
Theorem X8_normalized_path_shape :
  forall p normalizedPath,
    normalizePath p = Normal normalizedPath ->
    has_backslash normalizedPath = false /\
    has_double_slash normalizedPath = false /\
    (forall a, normalizedPath = (a ++ "/")%string ->
               a = EmptyString \/ ends_in_line_terminator a = true).
Proof.
  intros p np H. unfold normalizePath in H.
  destruct (decodeURIComponent (before_query p)) as [d | e]; [| discriminate].
  cbn [cbind] in H. injection H as <-.
  set (t := collapse_slashes (replace_chars (Ascii.eqb "\") (fun _ => "/") d)).
  assert (Hb : has_backslash t = false).
  { apply collapse_slashes_no_backslash. apply replace_backslashes_no_backslash. }
  assert (Hd : has_double_slash t = false) by apply collapse_slashes_no_double_slash.
  destruct (drop_while_end_split (Ascii.eqb "/") t) as (suffix & Ht & _).
  pose proof (drop_while_end_last (Ascii.eqb "/") t) as Hlast.
  assert (Hpb : has_backslash (drop_while_end (Ascii.eqb "/") t) = false).
  { unfold has_backslash in *. rewrite Ht, existsb_string_app in Hb.
    apply orb_false_elim in Hb. tauto. }
  assert (Hpd : has_double_slash (drop_while_end (Ascii.eqb "/") t) = false).
  { rewrite Ht in Hd. exact (has_double_slash_prefix _ _ Hd). }
  assert (Hno : forall a, drop_while_end (Ascii.eqb "/") t <> (a ++ "/")%string).
  { intros a Ha. specialize (Hlast a "/"%char Ha). discriminate. }
  unfold strip_trailing_slashes.
  destruct (String.eqb (drop_while_end (Ascii.eqb "/") t) t) eqn:Heq.
  - apply String.eqb_eq in Heq. split; [exact Hb |]. split; [exact Hd |].
    intros a Ha. exfalso. apply (Hno a). congruence.
  - destruct (drop_while_end (Ascii.eqb "/") t) as [| c q] eqn:Hp.
    + split; [reflexivity |]. split; [reflexivity |].
      intros a Ha. left. destruct a as [| x a]; [reflexivity |].
      simpl in Ha. injection Ha as _ Ha. destruct a; discriminate.
    + destruct (ends_in_line_terminator (String c q)) eqn:Hlt.
      * split; [| split].
        -- unfold has_backslash in *. rewrite existsb_string_app, Hpb. reflexivity.
        -- apply has_double_slash_snoc; assumption.
        -- intros a Ha. right. apply snoc_injective in Ha. destruct Ha as [<- _]. exact Hlt.
      * split; [exact Hpb |]. split; [exact Hpd |].
        intros a Ha. exfalso. exact (Hno a Ha).
Qed.

Lemma X8_witness :
  has_backslash "/a/b c/d" = false /\
  has_double_slash "/a/b c/d" = false /\
  (forall a, "/a/b c/d" = (a ++ "/")%string ->
             a = EmptyString \/ ends_in_line_terminator a = true).
Proof.
  apply (X8_normalized_path_shape "/a%2Fb%20c\d//?x=1" "/a/b c/d").
  vm_compute. reflexivity.
Defined.

(* ================================================================== *)
(** * Further properties: amounts, requirements and the payment header *)

Lemma Qle_bool_inject_Z_pos :
  forall n, (0 < n)%Z -> Qle_bool (inject_Z n) 0 = false.
Proof.
  intros n Hn. destruct (Qle_bool (inject_Z n) 0) eqn:E; [| reflexivity].
  apply Qle_bool_iff in E. change 0%Q with (inject_Z 0) in E.
  rewrite <- Zle_Qle in E. lia.
Qed.

(** Without [minAmountRequired] the resolution ends normally, whatever
    the price is. *)
Lemma resolve_without_minAmountRequired :
  forall cfg,
    nullish (obj_get cfg "minAmountRequired") = true ->
    exists z,
      resolveMinAmountRequired cfg = Normal z /\
      match obj_get cfg "price" with
      | VNum _ | VStr _ => True
      | _ => z = DEFAULT_MIN_AMOUNT
      end.
Proof.
  intros cfg Hm. unfold resolveMinAmountRequired. rewrite Hm. cbn [negb].
  destruct (obj_get cfg "price") as [| | b | n | s | items | props | name message];
    try (eexists; split; reflexivity).
  - destruct n as [| neg | q]; try (eexists; split; [reflexivity | exact I]).
    destruct (num_gt0 (Fin q)); eexists; split; try reflexivity; exact I.
  - destruct (StringToNumber (filter_string is_digit_or_dot (trim s))) as [| neg | q];
      try (eexists; split; [reflexivity | exact I]).
    destruct (num_gt0 (Fin q) && (has_satoshi_suffix (trim s) || all_digits (trim s)));
      eexists; split; try reflexivity; exact I.
Qed.

Lemma resolve_with_minAmountRequired :
  forall cfg,
    nullish (obj_get cfg "minAmountRequired") = false ->
    resolveMinAmountRequired cfg =
    match ToNumber (obj_get cfg "minAmountRequired") with
    | Fin q => if Qle_bool q 0 then Throw invalid_amount else Normal (Math_floor q)
    | _ => Throw invalid_amount
    end.
Proof.
  intros cfg Hm. unfold resolveMinAmountRequired. rewrite Hm. cbn [negb].
  destruct (ToNumber (obj_get cfg "minAmountRequired")); reflexivity.
Qed.

(** X10.  Only [minAmountRequired] can make the amount resolution fail,
    and with one error, [minAmountRequired must be a positive number].  A
    [minAmountRequired] that is a number makes it fail exactly when it is
    not finite or not above zero.  When [minAmountRequired] is given, the
    price is not looked at; when it is not, no price makes the resolution
    fail, and a price that is neither a number nor a string gives the
    default 1000. *)
Theorem X10_invalid_amount_comes_from_minAmountRequired_only :
  forall routeConfig,
    (forall e,
        resolveMinAmountRequired routeConfig = Throw e ->
        e = invalid_amount /\
        nullish (obj_get routeConfig "minAmountRequired") = false) /\
    (forall n,
        obj_get routeConfig "minAmountRequired" = VNum n ->
        ((exists e, resolveMinAmountRequired routeConfig = Throw e) <->
         match n with
         | Fin q => Qle_bool q 0 = true
         | _ => True
         end)) /\
    (nullish (obj_get routeConfig "minAmountRequired") = false ->
     forall p,
       resolveMinAmountRequired (obj_set routeConfig "price" p) =
       resolveMinAmountRequired routeConfig) /\
    (nullish (obj_get routeConfig "minAmountRequired") = true ->
     exists z,
       resolveMinAmountRequired routeConfig = Normal z /\ (0 <= z)%Z /\
       match obj_get routeConfig "price" with
       | VNum _ | VStr _ => True
       | _ => z = DEFAULT_MIN_AMOUNT
       end).
Proof.
  intros cfg.
  pose proof (resolve_without_minAmountRequired cfg) as Hprice.
  pose proof (resolve_with_minAmountRequired cfg) as Hgiven.
  split; [| split; [| split]].
  - intros e He. destruct (nullish (obj_get cfg "minAmountRequired")) eqn:Hm.
    + destruct (Hprice eq_refl) as (z & Hz & _). congruence.
    + split; [| reflexivity]. rewrite (Hgiven eq_refl) in He.
      destruct (ToNumber (obj_get cfg "minAmountRequired")) as [| neg | q];
        try (injection He as <-; reflexivity).
      destruct (Qle_bool q 0); [injection He as <-; reflexivity | discriminate].
  - intros n Hn.
    assert (Hm : nullish (obj_get cfg "minAmountRequired") = false).
    { rewrite Hn. reflexivity. }
    rewrite (Hgiven Hm), Hn. cbn [ToNumber].
    destruct n as [| neg | q].
    + split; [intros _; exact I | intros _; eexists; reflexivity].
    + split; [intros _; exact I | intros _; eexists; reflexivity].
    + destruct (Qle_bool q 0).
      * split; [intros _; reflexivity | intros _; eexists; reflexivity].
      * split; [intros [e He]; discriminate He | intros H; discriminate H].
  - intros Hm p.
    assert (Hsame : obj_get (obj_set cfg "price" p) "minAmountRequired" =
                    obj_get cfg "minAmountRequired").
    { apply obj_get_set_other. discriminate. }
    unfold resolveMinAmountRequired. rewrite Hsame, Hm. reflexivity.
  - intros Hm. destruct (Hprice Hm) as (z & Hz & Hd). exists z.
    split; [exact Hz |]. split; [| exact Hd].
    exact (resolveMinAmountRequired_nonneg cfg z Hz).
Qed.

(** X11.  A positive integer amount is advertised as it is: given as
    [minAmountRequired], or as a numeric [price] when there is no
    [minAmountRequired], an integer [n] with [0 < n <= 2^53 - 1] resolves
    to [n], and the requirement built for the route carries its decimal
    digits. *)
Theorem X11_positive_integer_amounts_are_kept :
  forall payTo routeConfig req n,
    (0 < n <= MAX_SAFE_INTEGER)%Z ->
    obj_get routeConfig "minAmountRequired" = VNum (Fin (inject_Z n)) \/
    (nullish (obj_get routeConfig "minAmountRequired") = true /\
     obj_get routeConfig "price" = VNum (Fin (inject_Z n))) ->
    resolveMinAmountRequired routeConfig = Normal n /\
    exists requirement,
      buildPaymentRequirements payTo routeConfig req = Normal [requirement] /\
      get_prop requirement "minAmountRequired" = Normal (VStr (String_of_Z n)).
Proof.
  intros payTo cfg req n [Hn _] Hcfg.
  assert (Hz : resolveMinAmountRequired cfg = Normal n).
  { unfold resolveMinAmountRequired. destruct Hcfg as [Hm | [Hm Hp]].
    - rewrite Hm. cbn [nullish negb ToNumber num_le0].
      rewrite (Qle_bool_inject_Z_pos n Hn).
      unfold Math_floor. rewrite Qfloor_Z. reflexivity.
    - rewrite Hm, Hp. cbn [negb num_gt0]. unfold Qpos_b.
      rewrite (Qle_bool_inject_Z_pos n Hn). cbn [negb].
      unfold Math_floor. rewrite Qfloor_Z. reflexivity. }
  split; [exact Hz |].
  unfold buildPaymentRequirements. rewrite Hz. cbn [cbind].
  eexists. split; reflexivity.
Qed.

Lemma X11_witness :
  resolveMinAmountRequired [("network", VStr "bch"); ("price", VNum (Fin 1500))] =
    Normal 1500%Z /\
  exists requirement,
    buildPaymentRequirements payToAddress
      [("network", VStr "bch"); ("price", VNum (Fin 1500))]
      (get_request "/protected" None) = Normal [requirement] /\
    get_prop requirement "minAmountRequired" = Normal (VStr (String_of_Z 1500)).
Proof.
  apply (X11_positive_integer_amounts_are_kept payToAddress
           [("network", VStr "bch"); ("price", VNum (Fin 1500))]
           (get_request "/protected" None) 1500%Z).
  - unfold MAX_SAFE_INTEGER. lia.
  - right. split; reflexivity.
Defined.

(** The digits of that amount, written out. *)
Example digits_of_1500 : String_of_Z 1500 = "1500".
Proof. reflexivity. Qed.

(** X13.  The requirements built for a route are one requirement with the
    scheme ["utxo"], the given pay-to address and the route's network (or
    ["bch"]); and a decoded payment selects it exactly when its scheme is
    the string ["utxo"] and its network is strictly equal to that
    network. *)
Theorem X13_selection_is_by_scheme_and_network :
  forall payTo routeConfig req paymentRequirements,
    buildPaymentRequirements payTo routeConfig req = Normal paymentRequirements ->
    exists requirement,
      paymentRequirements = [requirement] /\
      get_prop requirement "scheme" = Normal (VStr "utxo") /\
      get_prop requirement "payTo" = Normal (VStr payTo) /\
      get_prop requirement "network" =
        Normal (or_else (obj_get routeConfig "network") (VStr DEFAULT_NETWORK)) /\
      forall decodedPayment,
        find (selects decodedPayment) paymentRequirements =
        if strict_equal (VStr "utxo") (get_prop_opt decodedPayment "scheme") &&
           strict_equal (or_else (obj_get routeConfig "network") (VStr DEFAULT_NETWORK))
                        (get_prop_opt decodedPayment "network")
        then Some requirement
        else None.
Proof.
  intros payTo cfg req reqs H. unfold buildPaymentRequirements in H.
  destruct (resolveMinAmountRequired cfg) as [z | e]; [| discriminate].
  cbn [cbind] in H. injection H as <-.
  eexists. split; [reflexivity |]. repeat (split; [reflexivity |]).
  intros dp. cbn [find].
  match goal with
  | |- (if ?x then _ else _) = (if ?y then _ else _) => replace x with y by reflexivity
  end.
  destruct (strict_equal (VStr "utxo") (get_prop_opt dp "scheme") &&
            strict_equal (or_else (obj_get cfg "network") (VStr DEFAULT_NETWORK))
                         (get_prop_opt dp "network")); reflexivity.
Qed.

Lemma X13_witness :
  exists requirement,
    [protectedRequirement] = [requirement] /\
    get_prop requirement "scheme" = Normal (VStr "utxo") /\
    get_prop requirement "payTo" = Normal (VStr payToAddress) /\
    get_prop requirement "network" =
      Normal (or_else (obj_get [("network", VStr "bch"); ("price", VNum (Fin 1500))]
                         "network") (VStr DEFAULT_NETWORK)) /\
    forall decodedPayment,
      find (selects decodedPayment) [protectedRequirement] =
      if strict_equal (VStr "utxo") (get_prop_opt decodedPayment "scheme") &&
         strict_equal (or_else (obj_get [("network", VStr "bch"); ("price", VNum (Fin 1500))]
                                  "network") (VStr DEFAULT_NETWORK))
                      (get_prop_opt decodedPayment "network")
      then Some requirement
      else None.
Proof.
  apply (X13_selection_is_by_scheme_and_network payToAddress
           [("network", VStr "bch"); ("price", VNum (Fin 1500))]
           (get_request "/protected" None) [protectedRequirement]).
  vm_compute. reflexivity.
Defined.

(** X14.  A route given by a bare price (a string or a number) is
    advertised with every default: the requirement built for it has the
    scheme ["utxo"], the map's default network, an amount, the resource
    [protocol://host/path] of the request, empty description and MIME type,
    a timeout of 60 seconds, the placeholder asset, an output schema naming
    the upper-cased request method (an ASCII token), and an empty [extra].
    No bare price makes the builder fail; a price that is an integer
    number [n] with [0 < n <= 2^53 - 1] is advertised as the decimal digits
    of [n]. *)
Theorem X14_bare_price_route_requirement :
  forall payTo routes v req,
    match v with VStr _ | VNum _ => True | _ => False end ->
    ascii_only (method req) = true ->
    exists amount,
      buildPaymentRequirements payTo (normalizeValue routes v) req =
      Normal
        [ VObj [ ("scheme", VStr "utxo");
                 ("network", global_network routes);
                 ("minAmountRequired", VStr amount);
                 ("resource", VStr (protocol req ++ "://" ++ host req ++ path req));
                 ("description", VStr "");
                 ("mimeType", VStr "");
                 ("payTo", VStr payTo);
                 ("maxTimeoutSeconds", VNum (Fin 60));
                 ("asset", VStr DEFAULT_ASSET);
                 ("outputSchema",
                  VObj [("input", VObj [ ("type", VStr "http");
                                         ("method", VStr (toUpperCase (method req)));
                                         ("discoverable", VBool true) ])]);
                 ("extra", VObj []) ] ] /\
      forall n,
        (0 < n <= MAX_SAFE_INTEGER)%Z ->
        v = VNum (Fin (inject_Z n)) ->
        amount = String_of_Z n.
Proof.
  intros payTo routes v req Hv _.
  assert (Hcfg : normalizeValue routes v = [("price", v); ("network", global_network routes)]).
  { destruct v; try contradiction; reflexivity. }
  rewrite Hcfg.
  destruct (resolve_without_minAmountRequired
              [("price", v); ("network", global_network routes)] eq_refl)
    as (z & Hz & _).
  exists (String_of_Z z). split.
  - unfold buildPaymentRequirements. rewrite Hz. cbn [cbind].
    assert (Hnet : or_else (obj_get [("price", v); ("network", global_network routes)]
                              "network")
                     (VStr DEFAULT_NETWORK) = global_network routes).
    { change (obj_get [("price", v); ("network", global_network routes)] "network")
        with (global_network routes).
      unfold global_network, or_else.
      destruct (truthy (obj_get routes "network")) eqn:E; [rewrite E |]; reflexivity. }
    rewrite Hnet. reflexivity.
  - intros n [Hn _] Hvn. subst v.
    assert (Hzn : resolveMinAmountRequired
                    [("price", VNum (Fin (inject_Z n))); ("network", global_network routes)] =
                  Normal n).
    { unfold resolveMinAmountRequired.
      change (obj_get [("price", VNum (Fin (inject_Z n))); ("network", global_network routes)]
                "minAmountRequired") with VUndefined.
      change (obj_get [("price", VNum (Fin (inject_Z n))); ("network", global_network routes)]
                "price") with (VNum (Fin (inject_Z n))).
      cbn [nullish negb num_gt0]. unfold Qpos_b.
      rewrite (Qle_bool_inject_Z_pos n Hn). cbn [negb].
      unfold Math_floor. rewrite Qfloor_Z. reflexivity. }
    rewrite Hzn in Hz. injection Hz as <-. reflexivity.
Qed.

Lemma X14_witness :
  exists amount,
    buildPaymentRequirements payToAddress (normalizeValue baseRoutes (VNum (Fin 1200)))
      (get_request "/open" None) =
    Normal
      [ VObj [ ("scheme", VStr "utxo");
               ("network", global_network baseRoutes);
               ("minAmountRequired", VStr amount);
               ("resource",
                VStr (protocol (get_request "/open" None) ++ "://" ++
                      host (get_request "/open" None) ++ path (get_request "/open" None)));
               ("description", VStr "");
               ("mimeType", VStr "");
               ("payTo", VStr payToAddress);
               ("maxTimeoutSeconds", VNum (Fin 60));
               ("asset", VStr DEFAULT_ASSET);
               ("outputSchema",
                VObj [("input",
                       VObj [ ("type", VStr "http");
                              ("method", VStr (toUpperCase (method (get_request "/open" None))));
                              ("discoverable", VBool true) ])]);
               ("extra", VObj []) ] ] /\
    forall n,
      (0 < n <= MAX_SAFE_INTEGER)%Z ->
      VNum (Fin 1200) = VNum (Fin (inject_Z n)) ->
      amount = String_of_Z n.
Proof.
  apply (X14_bare_price_route_requirement payToAddress baseRoutes (VNum (Fin 1200))
           (get_request "/open" None)).
  - exact I.
  - reflexivity.
Defined.

(** X15.  A successful decode returns the parsed JSON object with its
    [x402Version] replaced by the server's version and every other
    property as the client sent it; the four required fields of the result
    are neither absent nor [null].  A header that is not valid JSON fails
    with the parser's error. *)
Theorem X15_decode_replaces_the_version_only :
  forall header version,
    (forall decoded,
        decodePaymentHeader header version = Normal decoded ->
        exists props,
          JSON_parse header = Normal (VObj props) /\
          get_prop decoded "x402Version" = Normal (VNum (Fin (inject_Z version))) /\
          (forall k, k <> "x402Version" -> get_prop decoded k = Normal (obj_get props k)) /\
          Forall (fun k => nullish (get_prop_opt decoded k) = false) requiredFields) /\
    (forall e, JSON_parse header = Throw e -> decodePaymentHeader header version = Throw e).
Proof.
  intros header version. split.
  - intros decoded H.
    destruct (decodePaymentHeader_success header version decoded H)
      as (props & Hparse & Hall & -> & Hversion).
    exists props. split; [exact Hparse |]. split; [exact Hversion |]. split.
    + intros k Hk. cbn [get_prop]. rewrite obj_get_set_other; [reflexivity |].
      intros E. apply Hk. symmetry. exact E.
    + unfold requiredFields in *.
      inversion Hall as [| ? ? _ Hrest]; subst.
      constructor;
        [unfold get_prop_opt; cbn [get_prop]; rewrite obj_get_set_same; reflexivity |].
      eapply Forall_impl; [| exact Hrest].
      intros k Hk. unfold get_prop_opt. cbn [get_prop].
      destruct (String.eqb "x402Version" k) eqn:E.
      * apply String.eqb_eq in E. subst k. rewrite obj_get_set_same. reflexivity.
      * rewrite obj_get_set_other; [exact Hk |].
        intros E'. rewrite E', String.eqb_refl in E. discriminate.
  - intros e H. apply decodePaymentHeader_parse_error. exact H.
Qed.

(* ================================================================== *)
(** * Further properties: the facilitator and the handler *)

(** X16.  The headers of the verify call: a property set by the auth
    hook's [verify] map wins over the static [verifyHeaders], and either
    wins over the [Content-Type] that the call sets first; when the hook
    rejects, the resolution of the headers fails with what it rejected
    with. *)
Theorem X16_hook_headers_override_static_headers :
  forall facilitator generated,
    createAuthHeaders facilitator = Function (Normal generated) ->
    exists headers,
      resolveFacilitatorHeaders facilitator = Normal headers /\
      (forall k,
          obj_get headers k =
          match (if truthy (get_prop_opt generated "verify")
                 then last_lookup (own_props (get_prop_opt generated "verify")) k
                 else None) with
          | Some v => v
          | None =>
              match last_lookup
                      (own_props (or_else (verifyHeaders facilitator) (VObj []))) k with
              | Some v => v
              | None => VUndefined
              end
          end) /\
      (forall decodedPayment selected k,
          obj_get (init_headers (verify_request headers decodedPayment selected)) k =
          match last_lookup headers k with
          | Some v => v
          | None => if String.eqb k "Content-Type" then VStr "application/json"
                    else VUndefined
          end).
Proof.
  intros fac generated Hhook. unfold resolveFacilitatorHeaders. rewrite Hhook.
  cbn [cbind].
  assert (Hreq : forall headers dp sel k,
             obj_get (init_headers (verify_request headers dp sel)) k =
             match last_lookup headers k with
             | Some v => v
             | None => if String.eqb k "Content-Type" then VStr "application/json"
                       else VUndefined
             end).
  { intros headers dp sel k. unfold verify_request. cbn [init_headers].
    rewrite spread_get. cbn [own_props].
    destruct (last_lookup headers k); [reflexivity |].
    unfold obj_get. cbn [obj_lookup]. destruct (String.eqb k "Content-Type"); reflexivity. }
  destruct (truthy (get_prop_opt generated "verify")) eqn:Hv;
    eexists; (split; [reflexivity |]); (split; [| apply Hreq]); intros k.
  - rewrite !spread_get.
    destruct (last_lookup (own_props (get_prop_opt generated "verify")) k); reflexivity.
  - rewrite spread_get. reflexivity.
Qed.

Lemma X16_witness :
  exists headers,
    resolveFacilitatorHeaders (hookedFacilitator Falsy) = Normal headers /\
    (forall k,
        obj_get headers k =
        match (if truthy (get_prop_opt
                            (VObj [("verify", VObj [("Authorization", VStr "Bearer token")])])
                            "verify")
               then last_lookup
                      (own_props
                         (get_prop_opt
                            (VObj [("verify", VObj [("Authorization", VStr "Bearer token")])])
                            "verify")) k
               else None) with
        | Some v => v
        | None =>
            match last_lookup
                    (own_props (or_else (verifyHeaders (hookedFacilitator Falsy)) (VObj [])))
                    k with
            | Some v => v
            | None => VUndefined
            end
        end) /\
    (forall decodedPayment selected k,
        obj_get (init_headers (verify_request headers decodedPayment selected)) k =
        match last_lookup headers k with
        | Some v => v
        | None => if String.eqb k "Content-Type" then VStr "application/json"
                  else VUndefined
        end).
Proof.
  apply (X16_hook_headers_override_static_headers (hookedFacilitator Falsy)
           (VObj [("verify", VObj [("Authorization", VStr "Bearer token")])])).
  reflexivity.
Defined.

(** The headers sent by the test suite's facilitator. *)
Example hooked_facilitator_headers :
  option_map (fun headers => init_headers (verify_request headers VNull VNull))
    (match resolveFacilitatorHeaders (hookedFacilitator Falsy) with
     | Normal headers => Some headers
     | Throw _ => None
     end) =
  Some [ ("Content-Type", VStr "application/json");
         ("x-custom", VStr "value");
         ("Authorization", VStr "Bearer token") ].
Proof. reflexivity. Qed.

Lemma handler_reaches_verification :
  forall globalFetch payTo routePatterns facilitator req paymentRequirements
         decodedPayment selected,
    reaches_verification payTo routePatterns req paymentRequirements decodedPayment selected ->
    run (paymentMiddlewareHandler globalFetch payTo routePatterns facilitator req) =
    match exchange globalFetch facilitator decodedPayment selected with
    | Throw error => caught error paymentRequirements
    | Normal verificationResult =>
        match get_prop verificationResult "isValid" with
        | Throw error => caught error paymentRequirements
        | Normal isValid =>
            if truthy isValid then ([CallNext], Normal tt)
            else ([ ResStatus 402;
                    ResJson (VObj (rejection_body verificationResult paymentRequirements)) ],
                  Normal tt)
        end
    end.
Proof.
  intros gf payTo ps fac req reqs dp sel (route & hdr & Hfind & Hreqs & Hhdr & Hne & Hdec & Hsel).
  rewrite (handler_selected gf payTo ps fac req route reqs hdr dp sel
             Hfind Hreqs Hhdr Hne Hdec Hsel).
  apply after_selection_outcome.
Qed.

Lemma or_else_truthy :
  forall a b, truthy b = true -> truthy (or_else a b) = true.
Proof. intros a b H. unfold or_else. destruct (truthy a) eqn:E; assumption. Qed.

(** The handler, by cases on the request alone: what it leaves on [res]
    and [next] and how it ends, for every facilitator and every global
    transport.  Only the last case looks at them. *)
Lemma handler_cases :
  forall payTo routePatterns req,
    (unmatched routePatterns req /\
     forall globalFetch facilitator,
       run (paymentMiddlewareHandler globalFetch payTo routePatterns facilitator req) =
       ([CallNext], Normal tt)) \/
    (exists route e,
        findMatchingRoute routePatterns (path req) (method req) = Normal (Some route) /\
        buildPaymentRequirements payTo (config route) req = Throw e /\
        forall globalFetch facilitator,
          run (paymentMiddlewareHandler globalFetch payTo routePatterns facilitator req) =
          ([], Throw e)) \/
    (exists route paymentRequirements,
        findMatchingRoute routePatterns (path req) (method req) = Normal (Some route) /\
        buildPaymentRequirements payTo (config route) req = Normal paymentRequirements /\
        ((forall decodedPayment selected,
             ~ reaches_verification payTo routePatterns req paymentRequirements
                 decodedPayment selected) /\
         (exists message,
             truthy message = true /\
             forall globalFetch facilitator,
               run (paymentMiddlewareHandler globalFetch payTo routePatterns facilitator req) =
               ([ResStatus 402; ResJson (VObj (challenge message paymentRequirements))],
                Normal tt)) \/
         exists decodedPayment selected,
           reaches_verification payTo routePatterns req paymentRequirements
             decodedPayment selected /\
           forall globalFetch facilitator,
             run (paymentMiddlewareHandler globalFetch payTo routePatterns facilitator req) =
             match exchange globalFetch facilitator decodedPayment selected with
             | Throw error => caught error paymentRequirements
             | Normal verificationResult =>
                 match get_prop verificationResult "isValid" with
                 | Throw error => caught error paymentRequirements
                 | Normal isValid =>
                     if truthy isValid then ([CallNext], Normal tt)
                     else ([ ResStatus 402;
                             ResJson (VObj (rejection_body verificationResult
                                              paymentRequirements)) ],
                           Normal tt)
                 end
             end)).
Proof.
  intros payTo ps req.
  destruct (findMatchingRoute_never_throws ps (path req) (method req))
    as [[route |] Hfind].
  2: { left. split; [exact Hfind | intros; apply handler_unmatched; exact Hfind]. }
  right.
  destruct (buildPaymentRequirements payTo (config route) req) as [reqs | e] eqn:Hreqs.
  2: { left. exists route, e. split; [exact Hfind |]. split; [exact Hreqs |].
       intros gf fac.
       exact (handler_invalid_amount gf payTo ps fac req route e Hfind Hreqs). }
  right. exists route, reqs. split; [exact Hfind |]. split; [exact Hreqs |].
  assert (Hnot : forall P : Prop,
             (forall hdr dp sel,
                 x_payment req = Some hdr -> hdr <> EmptyString ->
                 decodePaymentHeader hdr x402Version = Normal dp ->
                 find (selects dp) reqs = Some sel -> P) ->
             forall dp sel, reaches_verification payTo ps req reqs dp sel -> P).
  { intros P HP dp sel (route' & hdr & _ & _ & Hh & Hn & Hd & Hs).
    exact (HP hdr dp sel Hh Hn Hd Hs). }
  destruct (x_payment req) as [hdr |] eqn:Hhdr.
  2: { left. split; [intros dp0 sel0 Hr0; refine (Hnot False _ dp0 sel0 Hr0);
                     intros; discriminate |].
       eexists. split; [| intros gf fac;
         exact (handler_no_header gf payTo ps fac req route reqs Hfind Hreqs
                  (or_introl Hhdr))].
       reflexivity. }
  destruct (string_dec hdr EmptyString) as [Hempty | Hne].
  { subst hdr. left.
    split; [intros dp0 sel0 Hr0; refine (Hnot False _ dp0 sel0 Hr0); intros; congruence |].
    eexists. split; [| intros gf fac;
      exact (handler_no_header gf payTo ps fac req route reqs Hfind Hreqs
               (or_intror Hhdr))].
    reflexivity. }
  destruct (decodePaymentHeader hdr x402Version) as [dp | error] eqn:Hdec.
  2: { left.
       split; [intros dp0 sel0 Hr0; refine (Hnot False _ dp0 sel0 Hr0); intros; congruence |].
       destruct (get_prop_defined error "message"
                   (decodePaymentHeader_throws_error hdr x402Version error Hdec))
         as [m Hm].
       exists (or_else m (VStr "Invalid or malformed payment header")).
       split; [apply or_else_truthy; reflexivity |]. intros gf fac.
       destruct (handler_undecodable gf payTo ps fac req route reqs hdr error
                   Hfind Hreqs Hhdr Hne Hdec) as (m' & Hm' & Hrun).
       rewrite Hrun. congruence. }
  destruct (find (selects dp) reqs) as [sel |] eqn:Hsel.
  2: { left.
       split; [intros dp0 sel0 Hr0; refine (Hnot False _ dp0 sel0 Hr0); intros; congruence |].
       eexists. split; [| intros gf fac;
         exact (handler_unselected gf payTo ps fac req route reqs hdr dp
                  Hfind Hreqs Hhdr Hne Hdec Hsel)].
       reflexivity. }
  right. exists dp, sel.
  assert (Hreach : reaches_verification payTo ps req reqs dp sel).
  { exists route, hdr. repeat split; assumption. }
  split; [exact Hreach |]. intros gf fac.
  exact (handler_reaches_verification gf payTo ps fac req reqs dp sel Hreach).
Qed.

(** X17.  Whatever the request, the facilitator and the transports, the
    handler leaves one of four traces: one call of [next] and a normal
    end; nothing at all and a throw, which is the error of the
    requirements builder for the matched route; one [res.status(402)] and
    a throw, when the verification was reached and the exchange with the
    facilitator failed with [null] or [undefined], so that the [catch]
    clause cannot read a message; or one [res.status(402)] followed by
    one [res.json(body)] and a normal end, where the body carries
    [x402Version] 1, a non-empty (truthy) [error] and, as [accepts], the
    requirements built for the matched route.  So a body is never written together with a call of
    [next], [next] is never called once the status is set, and no status
    other than 402 is ever set. *)
Theorem X17_handler_traces :
  forall globalFetch payTo routePatterns facilitator req,
    exists log outcome,
      run (paymentMiddlewareHandler globalFetch payTo routePatterns facilitator req) =
        (log, outcome) /\
      ((log = [CallNext] /\ outcome = Normal tt) \/
       (exists route e,
           log = [] /\ outcome = Throw e /\
           findMatchingRoute routePatterns (path req) (method req) = Normal (Some route) /\
           buildPaymentRequirements payTo (config route) req = Throw e) \/
       (exists paymentRequirements decodedPayment selected error e,
           log = [ResStatus 402] /\ outcome = Throw e /\
           reaches_verification payTo routePatterns req paymentRequirements
             decodedPayment selected /\
           exchange globalFetch facilitator decodedPayment selected = Throw error /\
           nullish error = true /\
           get_prop error "message" = Throw e) \/
       (exists body route paymentRequirements,
           log = [ResStatus 402; ResJson body] /\ outcome = Normal tt /\
           findMatchingRoute routePatterns (path req) (method req) = Normal (Some route) /\
           buildPaymentRequirements payTo (config route) req = Normal paymentRequirements /\
           is_challenge_envelope body paymentRequirements)).
Proof.
  intros gf payTo ps fac req.
  assert (Hwritten : forall message route reqs,
             findMatchingRoute ps (path req) (method req) = Normal (Some route) ->
             buildPaymentRequirements payTo (config route) req = Normal reqs ->
             truthy message = true ->
             exists body route paymentRequirements,
               [ResStatus 402; ResJson (VObj (challenge message reqs))] =
                 [ResStatus 402; ResJson body] /\
               @Normal unit tt = Normal tt /\
               findMatchingRoute ps (path req) (method req) = Normal (Some route) /\
               buildPaymentRequirements payTo (config route) req =
                 Normal paymentRequirements /\
               is_challenge_envelope body paymentRequirements).
  { intros message route reqs Hfind Hreqs Hmsg.
    exists (VObj (challenge message reqs)), route, reqs.
    repeat (split; [first [reflexivity | assumption] |]).
    repeat split. exists message. split; [reflexivity | exact Hmsg]. }
  destruct (handler_cases payTo ps req)
    as [[_ Hrun] | [(route & e & Hfind & Hreqs & Hrun) |
        (route & reqs & Hfind & Hreqs &
         [[_ (message & Hmsg & Hrun)] | (dp & sel & Hreach & Hrun)])]];
    rewrite (Hrun gf fac).
  - eexists _, _. split; [reflexivity |]. left. split; reflexivity.
  - eexists _, _. split; [reflexivity |]. right. left.
    exists route, e. repeat split; assumption.
  - eexists _, _. split; [reflexivity |]. right. right. right.
    exact (Hwritten message route reqs Hfind Hreqs Hmsg).
  - destruct (exchange gf fac dp sel) as [vr | error] eqn:Hex.
    + destruct (get_prop vr "isValid") as [isValid | error] eqn:Hvalid.
      * destruct (truthy isValid).
        -- eexists _, _. split; [reflexivity |]. left. split; reflexivity.
        -- eexists _, _. split; [reflexivity |]. right. right. right.
           eexists _, route, reqs. repeat (split; [first [reflexivity | assumption] |]).
           repeat split. eexists. split; [reflexivity |].
           apply or_else_truthy. reflexivity.
      * assert (Hm : exists m, get_prop error "message" = Normal m).
        { destruct vr; simpl in Hvalid; try discriminate;
            injection Hvalid as <-; eexists; reflexivity. }
        destruct Hm as [m Hm]. unfold caught. rewrite Hm.
        eexists _, _. split; [reflexivity |]. right. right. right.
        apply (Hwritten _ route reqs Hfind Hreqs).
        apply or_else_truthy. reflexivity.
    + unfold caught. destruct (get_prop error "message") as [m | e] eqn:Hm.
      * eexists _, _. split; [reflexivity |]. right. right. right.
        apply (Hwritten _ route reqs Hfind Hreqs).
        apply or_else_truthy. reflexivity.
      * eexists _, _. split; [reflexivity |]. right. right. left.
        exists reqs, dp, sel, error, e.
        repeat (split; [first [reflexivity | assumption] |]).
        split; [| exact Hm].
        destruct (nullish error) eqn:Hnull; [reflexivity |].
        destruct (get_prop_defined error "message" Hnull) as [x Hx]. congruence.
Qed.

(** X18.  The facilitator is consulted only when the verification is
    reached: for a request that is unmatched, whose route config is
    rejected, that has no payment header, whose header does not decode, or
    whose payment selects no requirement, the handler does the same with
    every facilitator and every global transport. *)
Theorem X18_facilitator_is_consulted_after_selection_only :
  forall payTo routePatterns req,
    (forall paymentRequirements decodedPayment selected,
        ~ reaches_verification payTo routePatterns req paymentRequirements
            decodedPayment selected) ->
    forall globalFetch globalFetch' facilitator facilitator',
      run (paymentMiddlewareHandler globalFetch payTo routePatterns facilitator req) =
      run (paymentMiddlewareHandler globalFetch' payTo routePatterns facilitator' req).
Proof.
  intros payTo ps req Hnever gf gf' fac fac'.
  destruct (handler_cases payTo ps req)
    as [[_ Hrun] | [(route & e & _ & _ & Hrun) |
        (route & reqs & Hfind & Hreqs &
         [[_ (message & Hmsg & Hrun)] | (dp & sel & Hreach & _)])]];
    try (rewrite (Hrun gf fac), (Hrun gf' fac'); reflexivity).
  exfalso. exact (Hnever reqs dp sel Hreach).
Qed.

Lemma X18_witness :
  run (paymentMiddlewareHandler Falsy payToAddress (compiled baseRoutes)
         (facilitator_with Falsy) (get_request "/protected" None)) =
  run (paymentMiddlewareHandler (Function failingTransport) payToAddress
         (compiled baseRoutes) expiredFacilitator (get_request "/protected" None)).
Proof.
  apply (X18_facilitator_is_consulted_after_selection_only payToAddress
           (compiled baseRoutes) (get_request "/protected" None)).
  intros reqs dp sel (route & hdr & _ & _ & Hhdr & _). discriminate Hhdr.
Defined.

Lemma resolveFetch_own :
  forall globalFetch globalFetch' facilitator,
    fetch facilitator <> Falsy ->
    resolveFetch globalFetch facilitator = resolveFetch globalFetch' facilitator.
Proof.
  intros gf gf' fac H. unfold resolveFetch. destruct (fetch fac); [congruence | |]; reflexivity.
Qed.

Lemma handler_by_exchange :
  forall payTo routePatterns req globalFetch globalFetch' facilitator facilitator',
    (forall decodedPayment selected,
        exchange globalFetch facilitator decodedPayment selected =
        exchange globalFetch' facilitator' decodedPayment selected) ->
    run (paymentMiddlewareHandler globalFetch payTo routePatterns facilitator req) =
    run (paymentMiddlewareHandler globalFetch' payTo routePatterns facilitator' req).
Proof.
  intros payTo ps req gf gf' fac fac' Hex.
  destruct (handler_cases payTo ps req)
    as [[_ Hrun] | [(route & e & _ & _ & Hrun) |
        (route & reqs & Hfind & Hreqs &
         [[_ (message & Hmsg & Hrun)] | (dp & sel & Hreach & Hrun)])]];
    rewrite (Hrun gf fac), (Hrun gf' fac'); try reflexivity.
  rewrite (Hex dp sel). reflexivity.
Qed.

(** X22.  The transport of the facilitator config comes first: when
    [facilitator.fetch] is set (to a function or to any other truthy
    value) the global transport plays no part in what the handler does;
    and when it is not set, the handler does what it would do with the
    global transport given as [facilitator.fetch] and no global one. *)
Theorem X22_own_transport_comes_first :
  forall payTo routePatterns req globalFetch globalFetch' facilitator,
    (fetch facilitator <> Falsy ->
     run (paymentMiddlewareHandler globalFetch payTo routePatterns facilitator req) =
     run (paymentMiddlewareHandler globalFetch' payTo routePatterns facilitator req)) /\
    (fetch facilitator = Falsy ->
     run (paymentMiddlewareHandler globalFetch payTo routePatterns facilitator req) =
     run (paymentMiddlewareHandler Falsy payTo routePatterns
            (with_fetch facilitator globalFetch) req)).
Proof.
  intros payTo ps req gf gf' fac. split; intros H; apply handler_by_exchange;
    intros dp sel; unfold exchange.
  - rewrite (resolveFetch_own gf gf' fac H). reflexivity.
  - assert (Hf : resolveFetch gf fac = resolveFetch Falsy (with_fetch fac gf)).
    { unfold resolveFetch, with_fetch. cbn [fetch]. rewrite H.
      destruct gf; reflexivity. }
    rewrite Hf. reflexivity.
Qed.

(** X19.  A failure of the verify call is reported with its own message:
    when the verification is reached and the transport throws or rejects
    with an error whose [message] is a non-empty string, the handler
    writes one 402 response with that message as [error], does not call
    [next], and ends normally. *)
Theorem X19_transport_failure_is_reported_verbatim :
  forall globalFetch payTo routePatterns facilitator req paymentRequirements
         decodedPayment selected fetchImpl headers error message,
    reaches_verification payTo routePatterns req paymentRequirements decodedPayment selected ->
    resolveFetch globalFetch facilitator = Normal fetchImpl ->
    resolveFacilitatorHeaders facilitator = Normal headers ->
    fetchImpl (url facilitator ++ "/verify")%string
      (verify_request headers decodedPayment selected) = Throw error ->
    get_prop error "message" = Normal (VStr message) ->
    message <> EmptyString ->
    run (paymentMiddlewareHandler globalFetch payTo routePatterns facilitator req) =
    (challenge_written message paymentRequirements, Normal tt).
Proof.
  intros gf payTo ps fac req reqs dp sel f headers error message
         Hreach Hfetch Hheaders Hcall Hmsg Hne.
  rewrite (handler_reaches_verification gf payTo ps fac req reqs dp sel Hreach).
  unfold exchange. rewrite Hfetch. cbn [cbind]. rewrite Hheaders. cbn [cbind].
  rewrite Hcall. cbn [cbind]. unfold caught. rewrite Hmsg.
  destruct message; [congruence | reflexivity].
Qed.

(** X20.  A verify response without a success status is reported as
    [Facilitator verification failed: <status> <statusText>]; its body is
    not read, [next] is not called, and the handler ends normally. *)
Theorem X20_unsuccessful_status_is_reported :
  forall globalFetch payTo routePatterns facilitator req paymentRequirements
         decodedPayment selected fetchImpl headers response,
    reaches_verification payTo routePatterns req paymentRequirements decodedPayment selected ->
    resolveFetch globalFetch facilitator = Normal fetchImpl ->
    resolveFacilitatorHeaders facilitator = Normal headers ->
    fetchImpl (url facilitator ++ "/verify")%string
      (verify_request headers decodedPayment selected) = Normal response ->
    ok response = false ->
    run (paymentMiddlewareHandler globalFetch payTo routePatterns facilitator req) =
    (challenge_written
       ("Facilitator verification failed: " ++ String_of_Z (status response) ++ " " ++
        statusText response)
       paymentRequirements,
     Normal tt).
Proof.
  intros gf payTo ps fac req reqs dp sel f headers response
         Hreach Hfetch Hheaders Hcall Hok.
  rewrite (handler_reaches_verification gf payTo ps fac req reqs dp sel Hreach).
  unfold exchange. rewrite Hfetch. cbn [cbind]. rewrite Hheaders. cbn [cbind].
  rewrite Hcall. cbn [cbind]. rewrite Hok. cbn [negb].
  unfold caught, verification_failed, Error_. cbn [get_prop String.eqb Ascii.eqb Bool.eqb].
  reflexivity.
Qed.

(** X12.  When the auth hook rejects, the transport is not used: the
    handler reports the hook's error (its message when that is a non-empty
    string), whatever the transport is. *)
Theorem X12_hook_failure_is_reported :
  forall globalFetch payTo routePatterns facilitator req paymentRequirements
         decodedPayment selected fetchImpl error message,
    reaches_verification payTo routePatterns req paymentRequirements decodedPayment selected ->
    resolveFetch globalFetch facilitator = Normal fetchImpl ->
    createAuthHeaders facilitator = Function (Throw error) ->
    get_prop error "message" = Normal (VStr message) ->
    message <> EmptyString ->
    run (paymentMiddlewareHandler globalFetch payTo routePatterns facilitator req) =
    (challenge_written message paymentRequirements, Normal tt).
Proof.
  intros gf payTo ps fac req reqs dp sel f error message Hreach Hfetch Hhook Hmsg Hne.
  rewrite (handler_reaches_verification gf payTo ps fac req reqs dp sel Hreach).
  unfold exchange. rewrite Hfetch. cbn [cbind].
  unfold resolveFacilitatorHeaders. rewrite Hhook. cbn [cbind].
  unfold caught. rewrite Hmsg. destruct message; [congruence | reflexivity].
Qed.

(** X21.  Constructing the middleware: an empty [payTo] fails with
    [payTo is required] before the routes are looked at; otherwise
    construction fails exactly when the route map does not compile, with
    the error of the compilation, and never because of the facilitator. *)
Theorem X21_construction_errors :
  forall globalFetch RegExp_new payTo routes facilitator,
    (payTo = EmptyString ->
     paymentMiddleware globalFetch RegExp_new payTo routes facilitator =
     Throw (Error_ "payTo is required")) /\
    (payTo <> EmptyString ->
     forall e,
       paymentMiddleware globalFetch RegExp_new payTo routes facilitator = Throw e <->
       computeRoutePatterns RegExp_new routes = Throw e).
Proof.
  intros gf re payTo routes fac. split.
  - intros ->. reflexivity.
  - intros Hne e. unfold paymentMiddleware. destruct payTo; [congruence |].
    destruct (computeRoutePatterns re routes) as [patterns | e0]; cbn [cbind].
    + split; intros H; discriminate H.
    + split; intros H; injection H as <-; reflexivity.
Qed.

(** The paid request for [GET /protected] of the unit tests reaches the
    verification. *)
Lemma paidRequest_reaches_verification :
  reaches_verification payToAddress (compiled baseRoutes) paidRequest
    [protectedRequirement] decodedValidPayment protectedRequirement.
Proof.
  unfold reaches_verification. eexists _, validPaymentPayload.
  split; [vm_compute; reflexivity |].
  split; [vm_compute; reflexivity |].
  split; [reflexivity |].
  split; [vm_compute; discriminate |].
  split; vm_compute; reflexivity.
Qed.

Lemma X19_witness :
  run (paymentMiddlewareHandler Falsy payToAddress (compiled baseRoutes)
         (facilitator_with (Function failingTransport)) paidRequest) =
  (challenge_written "network error" [protectedRequirement], Normal tt).
Proof.
  apply (X19_transport_failure_is_reported_verbatim Falsy payToAddress
           (compiled baseRoutes) (facilitator_with (Function failingTransport)) paidRequest
           [protectedRequirement] decodedValidPayment protectedRequirement
           failingTransport [] (Error_ "network error") "network error"
           paidRequest_reaches_verification).
  - reflexivity.
  - reflexivity.
  - reflexivity.
  - reflexivity.
  - discriminate.
Defined.

Lemma X20_witness :
  run (paymentMiddlewareHandler Falsy payToAddress (compiled baseRoutes)
         (facilitator_with (Function (fun _ _ => Normal serverError))) paidRequest) =
  (challenge_written
     ("Facilitator verification failed: " ++ String_of_Z (status serverError) ++ " " ++
      statusText serverError)
     [protectedRequirement],
   Normal tt).
Proof.
  apply (X20_unsuccessful_status_is_reported Falsy payToAddress
           (compiled baseRoutes)
           (facilitator_with (Function (fun _ _ => Normal serverError))) paidRequest
           [protectedRequirement] decodedValidPayment protectedRequirement
           (fun _ _ => Normal serverError) [] serverError
           paidRequest_reaches_verification).
  - reflexivity.
  - reflexivity.
  - reflexivity.
  - reflexivity.
Defined.

Lemma X12_witness :
  run (paymentMiddlewareHandler Falsy payToAddress (compiled baseRoutes)
         expiredFacilitator paidRequest) =
  (challenge_written "token expired" [protectedRequirement], Normal tt).
Proof.
  apply (X12_hook_failure_is_reported Falsy payToAddress (compiled baseRoutes)
           expiredFacilitator paidRequest
           [protectedRequirement] decodedValidPayment protectedRequirement
           (responding approval) (Error_ "token expired") "token expired"
           paidRequest_reaches_verification).
  - reflexivity.
  - reflexivity.
  - reflexivity.
  - discriminate.
Defined.

(** The message of the status-500 response, written out. *)
Example server_error_message :
  ("Facilitator verification failed: " ++ String_of_Z (status serverError) ++ " " ++
   statusText serverError)%string =
  "Facilitator verification failed: 500 Internal Server Error".
Proof. reflexivity. Qed.

(* ================================================================== *)
(** * Further properties: literal paths *)

Lemma replace_chars_none :
  forall p f s, existsb_string p s = false -> replace_chars p f s = s.
Proof.
  intros p f. induction s as [| c s IH]; intros H; simpl in *; [reflexivity |].
  apply orb_false_elim in H. destruct H as [Hc Hs]. rewrite Hc, (IH Hs). reflexivity.
Qed.

Lemma replace_brackets_none :
  forall s fuel, existsb_string (Ascii.eqb "[") s = false -> replace_brackets fuel s = s.
Proof.
  induction s as [| c s IH]; intros fuel H; destruct fuel; try reflexivity.
  cbn [existsb_string] in H. apply orb_false_elim in H. destruct H as [Hc Hs].
  cbn [replace_brackets]. rewrite Ascii.eqb_sym, Hc, (IH fuel Hs). reflexivity.
Qed.

Lemma literal_char_facts :
  forall c,
    literal_char c = true ->
    Ascii.eqb "*" c = false /\ Ascii.eqb "[" c = false /\ is_line_terminator c = false /\
    (is_meta c || is_slash c = false -> Engine.syntax_char c = false) /\
    (is_meta c || is_slash c = true -> Engine.syntax_char c = true).
Proof.
  intros [[] [] [] [] [] [] [] []] H; try discriminate H;
    repeat split; intros; try reflexivity; discriminate.
Qed.

Lemma meta_is_not_slash : forall c, is_meta c = true -> Ascii.eqb "/" c = false.
Proof. intros [[] [] [] [] [] [] [] []] H; try discriminate H; reflexivity. Qed.

Lemma slash_is_not_meta : forall c, is_meta c = false -> is_slash c = Ascii.eqb "/" c.
Proof. intros c _. unfold is_slash. apply Ascii.eqb_sym. Qed.

(** The translation of a literal path escapes its metacharacters and its
    slashes and changes nothing else. *)
Lemma path_to_regex_literal :
  forall p, literal_path p = true -> path_to_regex p = literal_regex p.
Proof.
  intros p Hp. unfold path_to_regex.
  assert (H : existsb_string (Ascii.eqb "*")
                (replace_chars (char_in "$()+.?^{|}") escape_char p) = false /\
              existsb_string (Ascii.eqb "[")
                (replace_chars (char_in "$()+.?^{|}") escape_char p) = false /\
              replace_chars (Ascii.eqb "/") (fun _ => "\/")
                (replace_chars (char_in "$()+.?^{|}") escape_char p) = literal_regex p).
  { induction p as [| c p IH]; [repeat split |].
    cbn [literal_path forallb_string] in Hp. apply andb_prop in Hp. destruct Hp as [Hc Hp].
    destruct (IH Hp) as (I1 & I2 & I3).
    destruct (literal_char_facts c Hc) as (Hstar & Hbr & _).
    cbn [replace_chars literal_regex]. unfold literal_regex_char.
    change (char_in "$()+.?^{|}" c) with (is_meta c).
    destruct (is_meta c) eqn:Hm.
    - change (escape_char c ++ replace_chars (char_in "$()+.?^{|}") escape_char p)%string
        with (String "\" (String c (replace_chars (char_in "$()+.?^{|}") escape_char p))).
      cbn [existsb_string replace_chars orb].
      rewrite Hstar, Hbr, I1, I2, (meta_is_not_slash c Hm), I3.
      repeat split; reflexivity.
    - cbn [existsb_string replace_chars orb]. rewrite Hstar, Hbr, I1, I2, I3.
      unfold is_slash. rewrite (Ascii.eqb_sym c "/").
      destruct (Ascii.eqb "/" c) eqn:Hs.
      + apply Ascii.eqb_eq in Hs. subst c. repeat split; reflexivity.
      + repeat split; reflexivity. }
  destruct H as (H1 & H2 & H3).
  rewrite (replace_chars_none _ _ _ H1).
  rewrite (replace_brackets_none _ _ H2).
  exact H3.
Qed.

Lemma quantified_plain :
  forall a c r,
    Ascii.eqb "*" c = false -> Ascii.eqb "+" c = false ->
    Engine.quantified a (String c r) = (Engine.One a, String c r).
Proof.
  intros a [[] [] [] [] [] [] [] []] r H1 H2; try discriminate H1; try discriminate H2;
    reflexivity.
Qed.

(** After an atom, the text of a literal path never starts with a
    quantifier. *)
Lemma quantified_literal :
  forall a p,
    literal_path p = true ->
    Engine.quantified a (literal_regex p ++ "$") =
    (Engine.One a, (literal_regex p ++ "$")%string).
Proof.
  intros a [| c p] Hp; [reflexivity |].
  cbn [literal_path forallb_string] in Hp. apply andb_prop in Hp. destruct Hp as [Hc _].
  cbn [literal_regex]. unfold literal_regex_char.
  destruct (is_meta c || is_slash c) eqn:E; [reflexivity |].
  apply quantified_plain.
  - exact (proj1 (literal_char_facts c Hc)).
  - apply orb_false_elim in E. destruct E as [Hm _]. revert Hm. clear.
    destruct c as [[] [] [] [] [] [] [] []]; intros H; try discriminate H; reflexivity.
Qed.

Lemma parse_items_plain_step :
  forall fuel c r,
    Engine.syntax_char c = false -> is_line_terminator c = false ->
    Engine.parse_items (S fuel) (String c r) =
    Engine.cons_item (Engine.Lit c) r (Engine.parse_items fuel).
Proof.
  intros fuel [[] [] [] [] [] [] [] []] r H1 H2; try discriminate H1; try discriminate H2;
    reflexivity.
Qed.

Lemma parse_items_literal :
  forall p fuel,
    literal_path p = true ->
    String.length p + 2 <= fuel ->
    Engine.parse_items fuel (literal_regex p ++ "$") = Some (literal_items p).
Proof.
  induction p as [| c p IH]; intros fuel Hp Hfuel.
  - destruct fuel as [| [| fuel]]; [simpl in Hfuel; lia | simpl in Hfuel; lia |].
    reflexivity.
  - destruct fuel as [| fuel]; [simpl in Hfuel; lia |].
    pose proof Hp as Hp'.
    cbn [literal_path forallb_string] in Hp. apply andb_prop in Hp. destruct Hp as [Hc Hp].
    destruct (literal_char_facts c Hc) as (_ & _ & Hlt & Hplain & Hesc).
    assert (Hrest : Engine.cons_item (Engine.Lit c) (literal_regex p ++ "$")
                      (Engine.parse_items fuel) = Some (literal_items (String c p))).
    { unfold Engine.cons_item. rewrite (quantified_literal _ p Hp).
      rewrite (IH fuel Hp); [reflexivity | simpl in Hfuel; lia]. }
    cbn [literal_regex]. unfold literal_regex_char.
    destruct (is_meta c || is_slash c) eqn:E.
    + change ((String "\" (String c "") ++ literal_regex p) ++ "$")%string
        with (String "\" (String c (literal_regex p ++ "$"))).
      cbn [Engine.parse_items]. rewrite (Hesc eq_refl). exact Hrest.
    + change ((String c "" ++ literal_regex p) ++ "$")%string
        with (String c (literal_regex p ++ "$")).
      rewrite (parse_items_plain_step fuel c _ (Hplain eq_refl) Hlt). exact Hrest.
Qed.

Lemma literal_regex_length :
  forall p, String.length p <= String.length (literal_regex p).
Proof.
  induction p as [| c p IH]; [apply Nat.le_refl |].
  cbn [literal_regex]. unfold literal_regex_char.
  destruct (is_meta c || is_slash c); simpl; lia.
Qed.

Lemma length_append :
  forall a b, String.length (a ++ b) = String.length a + String.length b.
Proof. induction a as [| c a IH]; intros b; simpl; [reflexivity | rewrite IH; reflexivity]. Qed.

(** The items of a literal path match the strings that are the path up
    to the case of letters. *)
Lemma match_literal_items :
  forall p s at_start,
    Engine.match_items (literal_items p) s at_start = true <->
    toUpperCase s = toUpperCase p.
Proof.
  induction p as [| c p IH]; intros s at_start.
  - destruct s; simpl; split; intros H; try reflexivity; discriminate.
  - destruct s as [| d s]; cbn [literal_items Engine.match_items].
    + split; intros H; discriminate.
    + unfold toUpperCase. cbn [map_string Engine.accepts]. split.
      * intros H. apply andb_prop in H. destruct H as [Hc Hs].
        apply Ascii.eqb_eq in Hc. apply IH in Hs. unfold toUpperCase in Hs.
        rewrite Hc, Hs. reflexivity.
      * intros H. injection H as Hc Hs. apply andb_true_intro. split.
        -- apply Ascii.eqb_eq. symmetry. exact Hc.
        -- apply IH. exact Hs.
Qed.

Lemma search_anchored_later :
  forall items s, Engine.search (Engine.AssertStart :: items) s false = false.
Proof.
  intros items. induction s as [| c s IH]; cbn [Engine.search Engine.match_items andb orb].
  - reflexivity.
  - exact IH.
Qed.

Lemma search_anchored :
  forall items s,
    Engine.search (Engine.AssertStart :: items) s true = Engine.match_items items s true.
Proof.
  intros items s. destruct s as [| c s]; cbn [Engine.search Engine.match_items andb].
  - apply orb_false_r.
  - rewrite search_anchored_later. apply orb_false_r.
Qed.

(** X4.  A path of ASCII characters without a star, a bracket, a
    backslash or a line terminator is matched literally: its regular
    expression is the path with its metacharacters and slashes escaped,
    between [^] and [$]; the pattern is accepted, and it tests true exactly
    on the strings that are equal to the path up to the case of its
    letters. *)
Theorem X4_literal_path_matches_itself_only :
  forall p,
    ascii_only p = true ->
    literal_path p = true ->
    regexPattern_of p = ("^" ++ literal_regex p ++ "$")%string /\
    exists re,
      Engine.newRegExp (regexPattern_of p) = Normal re /\
      source re = regexPattern_of p /\
      forall s, test re s = true <-> toUpperCase s = toUpperCase p.
Proof.
  intros p _ Hp.
  assert (Hpat : regexPattern_of p = ("^" ++ literal_regex p ++ "$")%string).
  { unfold regexPattern_of. rewrite (path_to_regex_literal p Hp). reflexivity. }
  split; [exact Hpat |]. rewrite Hpat.
  assert (Hparse : Engine.parse_pattern ("^" ++ literal_regex p ++ "$") =
                   Some (Engine.AssertStart :: literal_items p)).
  { unfold Engine.parse_pattern.
    change ("^" ++ literal_regex p ++ "$")%string
      with (String "^" (literal_regex p ++ "$")).
    change (Engine.parse_items
              (S (String.length (String "^" (literal_regex p ++ "$"))))
              (String "^" (literal_regex p ++ "$")))
      with (option_map (cons Engine.AssertStart)
              (Engine.parse_items (String.length (String "^" (literal_regex p ++ "$")))
                 (literal_regex p ++ "$"))).
    rewrite (parse_items_literal p _ Hp); [reflexivity |].
    cbn [String.length]. rewrite length_append.
    pose proof (literal_regex_length p). simpl. lia. }
  unfold Engine.newRegExp. rewrite Hparse.
  eexists. split; [reflexivity |]. split; [reflexivity |].
  intros s. cbn [test]. rewrite search_anchored. apply match_literal_items.
Qed.

Lemma X4_witness :
  regexPattern_of "/v1/report.json" = ("^" ++ literal_regex "/v1/report.json" ++ "$")%string /\
  exists re,
    Engine.newRegExp (regexPattern_of "/v1/report.json") = Normal re /\
    source re = regexPattern_of "/v1/report.json" /\
    forall s, test re s = true <-> toUpperCase s = toUpperCase "/v1/report.json".
Proof.
  apply (X4_literal_path_matches_itself_only "/v1/report.json").
  - reflexivity.
  - reflexivity.
Defined.

(** The pattern text of that path, written out. *)
Example literal_regex_of_report :
  regexPattern_of "/v1/report.json" = "^\/v1\/report\.json$".
Proof. reflexivity. Qed.
